(** * Fractional 0/1 programming example (lin-prog)

    A shallow embedding of the script
    [lpsolve__5_5__ratios__fractional_01_programming__example.py].

    The script is straight-line Python: it builds two PuLP models, calls the
    external solver once on each, and prints two ratios, the objective value and
    the solution time.  The embedding is a state-and-exception monad over a
    world made of the object store (PuLP variables and problems are mutable
    objects), standard output and the log of models handed to the solver.  The
    solver itself is outside of the repository: it is a parameter of the
    development.

    Numbers.  The coefficients of the script are decimal literals; they are
    modelled as the rationals they denote.  Building the two models performs no
    rounding arithmetic on them (only negation, multiplication by one and
    addition to zero), so the models below carry the literals of the script.
    A solved value is a binary64 float in the program; here it is the rational
    that float denotes, and the two divisions and the sum of the closing
    statements are exact, where Python rounds each result to the nearest float
    (a relative error of at most 2^-53).  The statements on the optima
    therefore ask for an answer close to an optimum, not equal to one, and
    bound the printed values by 9 * 10^-8: a rounding of the order of 10^-16
    does not bring them to 10^-7. *)

From Stdlib Require Import QArith Qabs Qround Lqa.
From stdpp Require Import base list strings.

Local Open Scope string_scope.
Local Open Scope list_scope.
Local Open Scope Q_scope.

(** ** PuLP constants *)

Inductive LpCategory := LpContinuous | LpInteger | LpBinary.
Inductive LpSense := LpMinimize | LpMaximize.
Inductive LpConstraintSense := LpConstraintLE | LpConstraintEQ | LpConstraintGE.

(** The keys of the dictionary [pulp.LpStatus]. *)
Inductive LpStatusCode :=
  | LpStatusNotSolved | LpStatusOptimal | LpStatusInfeasible
  | LpStatusUnbounded | LpStatusUndefined.

Definition LpStatus (s : LpStatusCode) : string :=
  match s with
  | LpStatusNotSolved => "Not Solved"
  | LpStatusOptimal => "Optimal"
  | LpStatusInfeasible => "Infeasible"
  | LpStatusUnbounded => "Unbounded"
  | LpStatusUndefined => "Undefined"
  end.

(** ** Linear expressions and constraints

    An affine expression is an insertion-ordered table from variables to
    coefficients, plus a constant.  The key type is a parameter: the script
    builds expressions over object references, the solver receives them over
    variable names. *)

Record LpAffineExpression (K : Type) := mkExpr {
  terms : list (K * Q);
  constant : Q
}.
Arguments mkExpr {K} _ _.
Arguments terms {K} _.
Arguments constant {K} _.

(** A constraint [e (sense) 0]; the right-hand side of the source comparison
    has been moved to the left. *)
Record LpConstraint (K : Type) := mkConstraint {
  expr : LpAffineExpression K;
  csense : LpConstraintSense
}.
Arguments mkConstraint {K} _ _.
Arguments expr {K} _.
Arguments csense {K} _.

(** ** Objects *)

(** References into the two object stores. *)
Record VarRef := mkVarRef { var_addr : nat }.
Record ProbRef := mkProbRef { prob_addr : nat }.

Definition VarRef_eqb (a b : VarRef) : bool := Nat.eqb (var_addr a) (var_addr b).

(** An [LpVariable] object, with the attributes the script sets or reads. *)
Record LpVariable := mkVar {
  name : string;
  lowBound : option Q;
  cat : LpCategory;
  varValue : option Q
}.

(** An [LpProblem] object. *)
Record LpProblem := mkProblem {
  problem_name : string;
  sense : LpSense;
  objective : option (LpAffineExpression VarRef);
  constraints : list (LpConstraint VarRef);
  status : LpStatusCode;
  solutionTime : Q
}.

(** ** What the solver sees and what it answers *)

Record VarDecl := mkDecl {
  decl_name : string;
  decl_lowBound : option Q;
  decl_cat : LpCategory
}.

Record LpModel := mkModel {
  m_name : string;
  m_sense : LpSense;
  m_objective : option (LpAffineExpression string);
  m_constraints : list (LpConstraint string);
  m_variables : list VarDecl
}.

Record Solution := mkSolution {
  sol_status : LpStatusCode;
  sol_values : string -> option Q;
  sol_time : Q
}.

(** ** The world and the monad of the script *)

Inductive PyValue := PyFloat (q : Q) | PyNone.

(** A printed line: the literal text of the f-string and the interpolated
    value.  The rendering of a float as text is left out. *)
Record Line := mkLine { text : string; shown : PyValue }.

Record World := mkWorld {
  variables : list LpVariable;
  problems : list LpProblem;
  stdout : list Line;
  solver_log : list LpModel
}.

Definition initial_world : World := mkWorld [] [] [] [].

Inductive PyException :=
  | ZeroDivisionError | TypeError | AttributeError | ReferenceError.

Inductive Outcome (A : Type) :=
  | Returned (a : A) (w : World)
  | Raised (e : PyException) (w : World).
Arguments Returned {A} _ _.
Arguments Raised {A} _ _.

Definition world_of {A} (o : Outcome A) : World :=
  match o with Returned _ w => w | Raised _ w => w end.

Definition raised {A} (o : Outcome A) : option PyException :=
  match o with Returned _ _ => None | Raised e _ => Some e end.

Definition Py (A : Type) := World -> Outcome A.

Definition ret {A} (a : A) : Py A := fun w => Returned a w.

Definition bind {A B} (m : Py A) (k : A -> Py B) : Py B := fun w =>
  match m w with
  | Returned a w' => k a w'
  | Raised e w' => Raised e w'
  end.

Definition raise {A} (e : PyException) : Py A := fun w => Raised e w.

Declare Scope py_scope.
Delimit Scope py_scope with py.
Notation "x <- c ;; k" := (bind c (fun x => k))
  (at level 100, c at next level, right associativity) : py_scope.
Notation "c ;; k" := (bind c (fun _ => k))
  (at level 100, right associativity) : py_scope.

(** ** Expression algebra of PuLP

    Only the operators the script uses: a number times a variable, sums and
    differences of expressions, and the three comparisons that build a
    constraint. *)

Definition Expr := LpAffineExpression VarRef.

Definition of_variable (v : VarRef) : LpAffineExpression VarRef := mkExpr [(v, 1)] 0.
Definition of_number (q : Q) : LpAffineExpression VarRef := mkExpr [] q.
Coercion of_variable : VarRef >-> LpAffineExpression.
Coercion of_number : Q >-> LpAffineExpression.

(** [self[key] += value], or a new entry at the end of the table. *)
Fixpoint addterm (key : VarRef) (value : Q) (ts : list (VarRef * Q)) : list (VarRef * Q) :=
  match ts with
  | [] => [(key, value)]
  | (k, x) :: ts' =>
      if VarRef_eqb k key then (k, x + value) :: ts' else (k, x) :: addterm key value ts'
  end.

Definition add (self other : Expr) : Expr :=
  mkExpr (fold_left (fun ts vx => addterm (fst vx) (snd vx) ts) (terms other) (terms self))
         (constant self + constant other).

Definition sub (self other : Expr) : Expr :=
  mkExpr (fold_left (fun ts vx => addterm (fst vx) (- snd vx) ts) (terms other) (terms self))
         (constant self - constant other).

Definition rmul (other : Q) (self : Expr) : Expr :=
  if Qeq_bool other 0 then mkExpr [] 0
  else mkExpr (map (fun vx => (fst vx, other * snd vx)) (terms self)) (constant self * other).

Definition le (self other : Expr) : LpConstraint VarRef := mkConstraint (sub self other) LpConstraintLE.
Definition ge (self other : Expr) : LpConstraint VarRef := mkConstraint (sub self other) LpConstraintGE.
Definition eq_ (self other : Expr) : LpConstraint VarRef := mkConstraint (sub self other) LpConstraintEQ.

Declare Scope lp_scope.
Delimit Scope lp_scope with lp.
Bind Scope lp_scope with LpAffineExpression.
Arguments add (self other)%_lp.
Arguments sub (self other)%_lp.
Arguments rmul other%_Q self%_lp.
Arguments le (self other)%_lp.
Arguments ge (self other)%_lp.
Arguments eq_ (self other)%_lp.
Notation "c * e" := (rmul c e) : lp_scope.
Notation "a + b" := (add a b) : lp_scope.
Notation "a - b" := (sub a b) : lp_scope.
Notation "a <= b" := (le a b) : lp_scope.
Notation "a >= b" := (ge a b) : lp_scope.
Notation "a == b" := (eq_ a b) : lp_scope.

(** What [model += ...] may receive. *)
Inductive LpAddend :=
  | AddObjective (e : LpAffineExpression VarRef)
  | AddConstraint (c : LpConstraint VarRef).
#[warning="-uniform-inheritance"]
Coercion AddObjective : LpAffineExpression >-> LpAddend.
#[warning="-uniform-inheritance"]
Coercion AddConstraint : LpConstraint >-> LpAddend.

(** ** Semantics of a model: assignments, feasibility, objective *)

Definition Assignment := string -> Q.

Definition eval (env : Assignment) (e : LpAffineExpression string) : Q :=
  fold_right (fun xc acc => snd xc * env (fst xc) + acc) (constant e) (terms e).

Definition holds (env : Assignment) (c : LpConstraint string) : bool :=
  match csense c with
  | LpConstraintLE => Qle_bool (eval env (expr c)) 0
  | LpConstraintGE => Qle_bool 0 (eval env (expr c))
  | LpConstraintEQ => Qeq_bool (eval env (expr c)) 0
  end.

Definition in_category (k : LpCategory) (v : Q) : bool :=
  match k with
  | LpContinuous => true
  | LpInteger => Qeq_bool (inject_Z (Qfloor v)) v
  | LpBinary => Qeq_bool v 0 || Qeq_bool v 1
  end.

Definition in_domain (env : Assignment) (d : VarDecl) : bool :=
  match decl_lowBound d with
  | Some lb => Qle_bool lb (env (decl_name d))
  | None => true
  end && in_category (decl_cat d) (env (decl_name d)).

Definition feasible (m : LpModel) (env : Assignment) : bool :=
  forallb (holds env) (m_constraints m) && forallb (in_domain env) (m_variables m).

Definition objective_value (m : LpModel) (env : Assignment) : Q :=
  match m_objective m with
  | Some e => eval env e
  | None => 0
  end.

(** [env] is a best feasible point of [m], for the sense of [m]. *)
Definition optimal (m : LpModel) (env : Assignment) : Prop :=
  feasible m env = true /\
  forall env', feasible m env' = true ->
    match m_sense m with
    | LpMaximize => objective_value m env' <= objective_value m env
    | LpMinimize => objective_value m env <= objective_value m env'
    end.

(** ** Operations of the script on the world *)

Definition set_variables (vs : list LpVariable) (w : World) : World :=
  mkWorld vs (problems w) (stdout w) (solver_log w).
Definition set_problems (ps : list LpProblem) (w : World) : World :=
  mkWorld (variables w) ps (stdout w) (solver_log w).

(** Insertion sort of declarations by name, as [LpProblem.variables()] sorts. *)
Fixpoint insert_by_name (d : VarDecl) (l : list VarDecl) : list VarDecl :=
  match l with
  | [] => [d]
  | d' :: l' =>
      if String.leb (decl_name d) (decl_name d') then d :: d' :: l'
      else d' :: insert_by_name d l'
  end.

Definition sort_by_name (l : list VarDecl) : list VarDecl :=
  fold_right insert_by_name [] l.

(** [LpProblem.addVariables]: keep the first occurrence of each variable. *)
Definition addVariables (vs acc : list VarRef) : list VarRef :=
  fold_left (fun acc v => if existsb (VarRef_eqb v) acc then acc else acc ++ [v]) vs acc.

Definition keys {K} (e : LpAffineExpression K) : list K := map fst (terms e).

(** The variables of a problem: those of the objective, then those of the
    constraints in order. *)
Definition problem_variables (p : LpProblem) : list VarRef :=
  fold_left (fun acc c => addVariables (keys (expr c)) acc) (constraints p)
    (addVariables (from_option keys [] (objective p)) []).

(** Replace object references by the names of the objects. *)
Fixpoint resolve_terms (heap : list LpVariable) (ts : list (VarRef * Q))
  : option (list (string * Q)) :=
  match ts with
  | [] => Some []
  | (r, c) :: ts' =>
      match heap !! var_addr r, resolve_terms heap ts' with
      | Some v, Some l => Some ((name v, c) :: l)
      | _, _ => None
      end
  end.

Definition resolve_expr (heap : list LpVariable) (e : LpAffineExpression VarRef)
  : option (LpAffineExpression string) :=
  match resolve_terms heap (terms e) with
  | Some ts => Some (mkExpr ts (constant e))
  | None => None
  end.

Fixpoint resolve_constraints (heap : list LpVariable) (cs : list (LpConstraint VarRef))
  : option (list (LpConstraint string)) :=
  match cs with
  | [] => Some []
  | c :: cs' =>
      match resolve_expr heap (expr c), resolve_constraints heap cs' with
      | Some e, Some l => Some (mkConstraint e (csense c) :: l)
      | _, _ => None
      end
  end.

Fixpoint resolve_decls (heap : list LpVariable) (rs : list VarRef) : option (list VarDecl) :=
  match rs with
  | [] => Some []
  | r :: rs' =>
      match heap !! var_addr r, resolve_decls heap rs' with
      | Some v, Some l => Some (mkDecl (name v) (lowBound v) (cat v) :: l)
      | _, _ => None
      end
  end.

(** The model written out for the external solver. *)
Definition resolve (heap : list LpVariable) (p : LpProblem) : option LpModel :=
  match
    match objective p with
    | Some e => option_map Some (resolve_expr heap e)
    | None => Some None
    end,
    resolve_constraints heap (constraints p),
    resolve_decls heap (problem_variables p)
  with
  | Some o, Some cs, Some ds =>
      Some (mkModel (problem_name p) (sense p) o cs (sort_by_name ds))
  | _, _, _ => None
  end.

(** The solver stores the solved value into each variable object of the problem. *)
Definition store_values (s : Solution) (rs : list VarRef) (heap : list LpVariable)
  : list LpVariable :=
  fold_left
    (fun h r => alter (fun v => mkVar (name v) (lowBound v) (cat v) (sol_values s (name v)))
                      (var_addr r) h)
    rs heap.

Definition truediv_value (a b : PyValue) : PyException + PyValue :=
  match a, b with
  | PyFloat x, PyFloat y => if Qeq_bool y 0 then inl ZeroDivisionError else inr (PyFloat (x / y))
  | _, _ => inl TypeError
  end.

Definition to_value (o : option Q) : PyValue :=
  match o with Some q => PyFloat q | None => PyNone end.

(** [LpAffineExpression.value()]: [None] as soon as a variable has no value. *)
Fixpoint value_terms (heap : list LpVariable) (ts : list (VarRef * Q)) (s : Q)
  : option PyValue :=
  match ts with
  | [] => Some (PyFloat s)
  | (r, x) :: ts' =>
      match heap !! var_addr r with
      | None => None
      | Some v =>
          match varValue v with
          | None => Some PyNone
          | Some q => value_terms heap ts' (s + q * x)
          end
      end
  end.

(** The external solver: any function from the model it is handed to the
    status, the solved values by variable name and the wall-clock time. *)
Definition Solver := LpModel -> Solution.

Module pulp.

Definition LpMaximize := LpMaximize.
Definition LpStatus := LpStatus.

(** [pulp.LpProblem(name, sense)]: a new problem object, no objective, no
    constraints, not solved. *)
Definition LpProblem (nm : string) (s : LpSense) : Py ProbRef := fun w =>
  Returned (mkProbRef (length (problems w)))
           (set_problems (problems w ++ [mkProblem nm s None [] LpStatusNotSolved 0]) w).

(** [pulp.LpVariable(name, lowBound=..., cat=...)]: a new variable object
    without a value. *)
Definition LpVariable (nm : string) (lb : option Q) (k : LpCategory) : Py VarRef := fun w =>
  Returned (mkVarRef (length (variables w)))
           (set_variables (variables w ++ [mkVar nm lb k None]) w).

(** [pulp.value(x)] for an expression [x]. *)
Definition value (x : Py (option Expr)) : Py PyValue :=
  (o <- x ;;
   match o with
   | None => raise AttributeError
   | Some e => fun w =>
       match value_terms (variables w) (terms e) (constant e) with
       | Some v => Returned v w
       | None => Raised ReferenceError w
       end
   end)%py.

End pulp.

(** [LpProblem.__iadd__]: an expression becomes the objective, a constraint is
    appended. *)
Definition iadd_problem (p : LpProblem) (x : LpAddend) : LpProblem :=
  match x with
  | AddObjective e =>
      mkProblem (problem_name p) (sense p) (Some e) (constraints p) (status p) (solutionTime p)
  | AddConstraint c =>
      mkProblem (problem_name p) (sense p) (objective p) (constraints p ++ [c])
                (status p) (solutionTime p)
  end.

(** [model += x] mutates the problem object in place. *)
Definition iadd (model : ProbRef) (x : LpAddend) : Py unit := fun w =>
  match problems w !! prob_addr model with
  | None => Raised ReferenceError w
  | Some p =>
      Returned tt (set_problems (<[prob_addr model := iadd_problem p x]> (problems w)) w)
  end.

(** [model.solve()]: the model is written out, the solver runs on it, and its
    answer is stored into the variable objects and the problem object. *)
Definition solve (solver : Solver) (model : ProbRef) : Py unit := fun w =>
  match problems w !! prob_addr model with
  | None => Raised ReferenceError w
  | Some p =>
      match resolve (variables w) p with
      | None => Raised ReferenceError w
      | Some m =>
          let s := solver m in
          Returned tt
            (mkWorld (store_values s (problem_variables p) (variables w))
                     (<[prob_addr model :=
                          mkProblem (problem_name p) (sense p) (objective p) (constraints p)
                                    (sol_status s) (sol_time s)]> (problems w))
                     (stdout w)
                     (solver_log w ++ [m]))
      end
  end.

(** Attribute reads. *)
Definition varValue_of (v : VarRef) : Py PyValue := fun w =>
  match variables w !! var_addr v with
  | Some o => Returned (to_value (varValue o)) w
  | None => Raised ReferenceError w
  end.

Definition problem_attr {A} (f : LpProblem -> A) (model : ProbRef) : Py A := fun w =>
  match problems w !! prob_addr model with
  | Some p => Returned (f p) w
  | None => Raised ReferenceError w
  end.

Definition status_of : ProbRef -> Py LpStatusCode := problem_attr status.
Definition objective_of : ProbRef -> Py (option Expr) := problem_attr objective.
Definition solutionTime_of (model : ProbRef) : Py PyValue :=
  problem_attr (fun p => PyFloat (solutionTime p)) model.

(** [d[k]] for a dictionary defined on every key of its key type. *)
Definition subscript {K V} (d : K -> V) (k : Py K) : Py V :=
  (x <- k ;; ret (d x))%py.

(** [a / b]: both operands are evaluated, left first, then divided. *)
Definition truediv (a b : Py PyValue) : Py PyValue :=
  (x <- a ;;
   y <- b ;;
   match truediv_value x y with
   | inl e => raise e
   | inr v => ret v
   end)%py.

(** [f'text{e}'] and [print]. *)
Definition fstring (txt : string) (e : Py PyValue) : Py Line :=
  (v <- e ;; ret (mkLine txt v))%py.

Definition print (l : Py Line) : Py unit :=
  (x <- l ;;
   fun w => Returned tt (mkWorld (variables w) (problems w) (stdout w ++ [x]) (solver_log w)))%py.

Notation "a / b" := (truediv a b) : py_scope.
Notation "model += x" := (iadd model x%lp)
  (at level 72, x at level 71, no associativity) : py_scope.

(** ** The script *)

Local Open Scope py_scope.

(** Part 1, lines 42-60: the linear program with continuous variables. *)
Definition part1 (solver : Solver) : Py unit :=
  model <- pulp.LpProblem "lp solve fractional 0-1 programming example" pulp.LpMaximize ;;

  y0 <- pulp.LpVariable "y0" (Some 0) LpContinuous ;;
  y1 <- pulp.LpVariable "y1" (Some 0) LpContinuous ;;
  y2 <- pulp.LpVariable "y2" (Some 0) LpContinuous ;;

  model += 1.8 * y1 + 1.7 * y2 ;;

  model += -6 * y0 + 1.5 * y1 + y2 <= 0 ;;
  model += -20 * y0 + 3.0 * y1 + 4 * y2 <= 0 ;;
  model += 10 * y0 + 4.0 * y1 + 4.1 * y2 == 1 ;;

  solve solver model ;;
  subscript pulp.LpStatus (status_of model) ;;

  print (fstring "x1 value: " (varValue_of y1 / varValue_of y0)) ;;
  print (fstring "x2 value: " (varValue_of y2 / varValue_of y0)) ;;
  print (fstring "maximum value: " (pulp.value (objective_of model))) ;;
  print (fstring "solution time: " (solutionTime_of model)).

(** Part 2, lines 80-118: the Charnes-Cooper model with binary decisions.
    The names [model], [y0], [y1], [y2] are bound again to new objects before
    their first use, which the binders below do by shadowing. *)
Definition part2 (solver : Solver) : Py unit :=
  model <- pulp.LpProblem "lp solve fractional 0-1 programming example" pulp.LpMaximize ;;

  y0 <- pulp.LpVariable "y0" (Some 0) LpContinuous ;;
  y1 <- pulp.LpVariable "y1" (Some 0) LpContinuous ;;
  y2 <- pulp.LpVariable "y2" (Some 0) LpContinuous ;;

  z1 <- pulp.LpVariable "z1" None LpBinary ;;
  z2 <- pulp.LpVariable "z2" None LpBinary ;;

  model += 1.8 * y1 + 1.7 * y2 ;;

  model += 10 * y0 + 4.0 * y1 + 4.1 * y2 == 1 ;;

  model += -6 * y0 + 1.5 * y1 + y2 <= 0 ;;
  model += -20 * y0 + 3.0 * y1 + 4 * y2 <= 0 ;;

  model += y1 <= 0.127 * z1 ;;
  model += y1 - y0 - 0.032 * z1 >= -0.032 ;;
  model += y1 - y0 + 0.032 * z1 <= 0.032 ;;

  model += y2 <= 0.127 * z2 ;;
  model += y2 - y0 - 0.032 * z2 >= -0.032 ;;
  model += y2 - y0 + 0.032 * z2 <= 0.032 ;;

  solve solver model ;;
  subscript pulp.LpStatus (status_of model) ;;

  print (fstring "x1 value: " (varValue_of y1 / varValue_of y0)) ;;
  print (fstring "x2 value: " (varValue_of y2 / varValue_of y0)) ;;
  print (fstring "maximum value: " (pulp.value (objective_of model))) ;;
  print (fstring "solution time: " (solutionTime_of model)).

(** The whole script, run top to bottom. *)
Definition script (solver : Solver) : Py unit :=
  part1 solver ;;
  part2 solver.

Local Close Scope py_scope.

(** * Verification *)

(** ** The two models, written out

    Coefficients are the literals of the script.  The constants are the
    rationals PuLP's arithmetic leaves, in the representation the operations
    of [Q] produce: [0.00] is 0/100, the sum of the constants of [1.8 * y1]
    and [1.7 * y2]. *)

Definition decls1 : list VarDecl :=
  [ mkDecl "y0" (Some 0) LpContinuous;
    mkDecl "y1" (Some 0) LpContinuous;
    mkDecl "y2" (Some 0) LpContinuous ].

Definition decls2 : list VarDecl :=
  decls1 ++ [ mkDecl "z1" None LpBinary; mkDecl "z2" None LpBinary ].

Definition the_objective : LpAffineExpression string :=
  mkExpr [("y1", 1.8); ("y2", 1.7)] 0.00.

Definition c_first : LpConstraint string :=
  mkConstraint (mkExpr [("y0", -6); ("y1", 1.5); ("y2", 1)] 0.0) LpConstraintLE.
Definition c_second : LpConstraint string :=
  mkConstraint (mkExpr [("y0", -20); ("y1", 3.0); ("y2", 4)] 0.0) LpConstraintLE.
Definition c_normalization : LpConstraint string :=
  mkConstraint (mkExpr [("y0", 10); ("y1", 4.0); ("y2", 4.1)] (-1.00)) LpConstraintEQ.

(** The three linking constraints of [y] and [z]. *)
Definition c_upper (y z : string) : LpConstraint string :=
  mkConstraint (mkExpr [(y, 1); (z, -0.127)] 0.000) LpConstraintLE.
Definition c_link_ge (y z : string) : LpConstraint string :=
  mkConstraint (mkExpr [(y, 1); ("y0", -1); (z, -0.032)] 0.032000) LpConstraintGE.
Definition c_link_le (y z : string) : LpConstraint string :=
  mkConstraint (mkExpr [(y, 1); ("y0", -1); (z, 0.032)] (-0.032000)) LpConstraintLE.

Definition model1 : LpModel :=
  mkModel "lp solve fractional 0-1 programming example" LpMaximize
    (Some the_objective)
    [c_first; c_second; c_normalization]
    decls1.

Definition model2 : LpModel :=
  mkModel "lp solve fractional 0-1 programming example" LpMaximize
    (Some the_objective)
    [c_normalization; c_first; c_second;
     c_upper "y1" "z1"; c_link_ge "y1" "z1"; c_link_le "y1" "z1";
     c_upper "y2" "z2"; c_link_ge "y2" "z2"; c_link_le "y2" "z2"]
    decls2.

(** ** What a part does after the solver has answered

    Both parts end with the same six statements.  [report s] is what they
    print, and the exception they stop with if any, when the solver answered
    [s]. *)

Definition solved_variables (s : Solution) (ds : list VarDecl) : list LpVariable :=
  map (fun d => mkVar (decl_name d) (decl_lowBound d) (decl_cat d) (sol_values s (decl_name d))) ds.

Definition solved_objective (s : Solution) : PyValue :=
  match sol_values s "y1", sol_values s "y2" with
  | Some q1, Some q2 => PyFloat (0.00 + q1 * 1.8 + q2 * 1.7)
  | _, _ => PyNone
  end.

Definition closing_report (v0 v1 v2 : option Q) (obj : PyValue) (t : Q)
  : list Line * option PyException :=
  match truediv_value (to_value v1) (to_value v0) with
  | inl e => ([], Some e)
  | inr x1 =>
      match truediv_value (to_value v2) (to_value v0) with
      | inl e => ([mkLine "x1 value: " x1], Some e)
      | inr x2 =>
          ([mkLine "x1 value: " x1;
            mkLine "x2 value: " x2;
            mkLine "maximum value: " obj;
            mkLine "solution time: " (PyFloat t)], None)
      end
  end.

Definition report (s : Solution) : list Line * option PyException :=
  closing_report (sol_values s "y0") (sol_values s "y1") (sol_values s "y2")
                 (solved_objective s) (sol_time s).

(** ** Stepping through a part from an arbitrary world *)

(** The address [i] places after the objects already in the store. *)
Definition off (n i : nat) : nat := (i + n)%nat.
Arguments off : simpl never.

Lemma lookup_off {A} (l1 l2 : list A) (i : nat) :
  (l1 ++ l2) !! off (length l1) i = l2 !! i.
Proof. unfold off. rewrite lookup_app_r by lia. f_equal. lia. Qed.

Lemma alter_off {A} (f : A -> A) (l1 l2 : list A) (i : nat) :
  alter f (off (length l1) i) (l1 ++ l2) = l1 ++ alter f i l2.
Proof. unfold off. rewrite Nat.add_comm. apply alter_app_r. Qed.

Lemma eqb_off (n i j : nat) : Nat.eqb (off n i) (off n j) = Nat.eqb i j.
Proof.
  unfold off. destruct (Nat.eqb_spec i j) as [->|Hij].
  - apply Nat.eqb_refl.
  - apply Nat.eqb_neq. lia.
Qed.

Lemma lookup_last {A} (l : list A) (x : A) : (l ++ [x]) !! length l = Some x.
Proof. by apply list_lookup_middle. Qed.

Lemma insert_last {A} (l : list A) (x y : A) : <[length l := y]> (l ++ [x]) = l ++ [y].
Proof.
  replace (length l) with (length l + 0)%nat by lia. by rewrite insert_app_r.
Qed.

Lemma bind_Returned {A B} (m : Py A) (k : A -> Py B) w a w' :
  m w = Returned a w' -> bind m k w = k a w'.
Proof. unfold bind. by intros ->. Qed.

Lemma bind_Raised {A B} (m : Py A) (k : A -> Py B) w e w' :
  m w = Raised e w' -> bind m k w = Raised e w'.
Proof. unfold bind. by intros ->. Qed.

Lemma LpProblem_run nm s vs ps out log :
  pulp.LpProblem nm s (mkWorld vs ps out log) =
  Returned (mkProbRef (length ps))
           (mkWorld vs (ps ++ [mkProblem nm s None [] LpStatusNotSolved 0]) out log).
Proof. reflexivity. Qed.

Lemma LpVariable_run nm lb k vs l ps out log :
  pulp.LpVariable nm lb k (mkWorld (vs ++ l) ps out log) =
  Returned (mkVarRef (off (length vs) (length l)))
           (mkWorld (vs ++ (l ++ [mkVar nm lb k None])) ps out log).
Proof.
  unfold pulp.LpVariable, set_variables, off; cbn.
  by rewrite length_app, Nat.add_comm, app_assoc.
Qed.

Lemma iadd_run x vs ps p out log :
  iadd (mkProbRef (length ps)) x (mkWorld vs (ps ++ [p]) out log) =
  Returned tt (mkWorld vs (ps ++ [iadd_problem p x]) out log).
Proof.
  unfold iadd, set_problems; cbn. by rewrite lookup_last, insert_last.
Qed.

Lemma solve_run solver vs ps p m out log :
  resolve vs p = Some m ->
  solve solver (mkProbRef (length ps)) (mkWorld vs (ps ++ [p]) out log) =
  Returned tt
    (mkWorld (store_values (solver m) (problem_variables p) vs)
             (ps ++ [mkProblem (problem_name p) (sense p) (objective p) (constraints p)
                               (sol_status (solver m)) (sol_time (solver m))])
             out (log ++ [m])).
Proof.
  intros Hm. unfold solve; cbn. by rewrite lookup_last, Hm, insert_last.
Qed.

Lemma rmul_nonzero (c : Q) (e : Expr) :
  Qeq_bool c 0 = false ->
  rmul c e = mkExpr (map (fun vx => (fst vx, c * snd vx)) (terms e)) (constant e * c).
Proof. unfold rmul. by intros ->. Qed.

Lemma VarRef_eqb_off n i j :
  VarRef_eqb (mkVarRef (off n i)) (mkVarRef (off n j)) = Nat.eqb i j.
Proof. apply eqb_off. Qed.

(** *** Relocation

    What the solver is handed, and what it stores back, does not depend on the
    addresses of the objects: moving a problem and its variables [n] places up
    the store changes nothing else. *)

Definition shift (n : nat) (r : VarRef) : VarRef := mkVarRef (off n (var_addr r)).

Definition shift_expr (n : nat) (e : Expr) : Expr :=
  mkExpr (map (fun vx => (shift n (fst vx), snd vx)) (terms e)) (constant e).

Definition shift_constraint (n : nat) (c : LpConstraint VarRef) : LpConstraint VarRef :=
  mkConstraint (shift_expr n (expr c)) (csense c).

Definition shift_problem (n : nat) (p : LpProblem) : LpProblem :=
  mkProblem (problem_name p) (sense p) (option_map (shift_expr n) (objective p))
            (map (shift_constraint n) (constraints p)) (status p) (solutionTime p).

Lemma VarRef_eqb_shift n a b : VarRef_eqb (shift n a) (shift n b) = VarRef_eqb a b.
Proof. apply eqb_off. Qed.

Lemma existsb_shift n v acc :
  existsb (VarRef_eqb (shift n v)) (map (shift n) acc) = existsb (VarRef_eqb v) acc.
Proof.
  induction acc as [|a acc IH]; [done|].
  cbn [map existsb]. by rewrite VarRef_eqb_shift, IH.
Qed.

Lemma addVariables_shift n vs acc :
  addVariables (map (shift n) vs) (map (shift n) acc) = map (shift n) (addVariables vs acc).
Proof.
  unfold addVariables. revert acc.
  induction vs as [|v vs IH]; intros acc; [done|]. cbn [map fold_left].
  rewrite existsb_shift. destruct (existsb (VarRef_eqb v) acc); [apply IH|].
  rewrite <- IH. by rewrite map_app.
Qed.

Lemma keys_shift n e : keys (shift_expr n e) = map (shift n) (keys e).
Proof.
  unfold keys, shift_expr; cbn. induction (terms e) as [|t ts IH]; [done|].
  cbn. by rewrite IH.
Qed.

Lemma problem_variables_shift n p :
  problem_variables (shift_problem n p) = map (shift n) (problem_variables p).
Proof.
  unfold problem_variables, shift_problem; cbn [objective constraints].
  assert (E : addVariables (from_option keys [] (option_map (shift_expr n) (objective p))) [] =
              map (shift n) (addVariables (from_option keys [] (objective p)) [])).
  { destruct (objective p); cbn [option_map from_option]; [|done].
    rewrite keys_shift. apply (addVariables_shift n _ []). }
  rewrite E. clear E.
  generalize (addVariables (from_option keys [] (objective p)) []).
  induction (constraints p) as [|c cs IH]; intros acc; [done|].
  cbn [map fold_left]. cbn [shift_constraint expr].
  by rewrite keys_shift, addVariables_shift, IH.
Qed.

Section Relocation.
Variables (vs l : list LpVariable).

Lemma resolve_terms_shift ts :
  resolve_terms (vs ++ l) (map (fun vx => (shift (length vs) (fst vx), snd vx)) ts) =
  resolve_terms l ts.
Proof.
  induction ts as [|[r c] ts IH]; [done|].
  cbn [map resolve_terms fst snd shift var_addr]. by rewrite lookup_off, IH.
Qed.

Lemma resolve_expr_shift e :
  resolve_expr (vs ++ l) (shift_expr (length vs) e) = resolve_expr l e.
Proof. unfold resolve_expr, shift_expr; cbn. by rewrite resolve_terms_shift. Qed.

Lemma resolve_constraints_shift cs :
  resolve_constraints (vs ++ l) (map (shift_constraint (length vs)) cs) =
  resolve_constraints l cs.
Proof.
  induction cs as [|c cs IH]; [done|].
  cbn [map resolve_constraints shift_constraint expr csense].
  by rewrite resolve_expr_shift, IH.
Qed.

Lemma resolve_decls_shift rs :
  resolve_decls (vs ++ l) (map (shift (length vs)) rs) = resolve_decls l rs.
Proof.
  induction rs as [|r rs IH]; [done|].
  cbn [map resolve_decls shift var_addr]. by rewrite lookup_off, IH.
Qed.

Lemma resolve_shift p :
  resolve (vs ++ l) (shift_problem (length vs) p) = resolve l p.
Proof.
  unfold resolve. rewrite problem_variables_shift, resolve_decls_shift.
  unfold shift_problem; cbn [objective constraints problem_name sense].
  rewrite resolve_constraints_shift.
  destruct (objective p); cbn [option_map]; by rewrite ?resolve_expr_shift.
Qed.

Lemma value_terms_shift ts s :
  value_terms (vs ++ l) (map (fun vx => (shift (length vs) (fst vx), snd vx)) ts) s =
  value_terms l ts s.
Proof.
  revert s. induction ts as [|[r c] ts IH]; intros s; [done|].
  cbn [map value_terms fst snd shift var_addr]. rewrite lookup_off.
  destruct (l !! var_addr r) as [v|]; [|done]. destruct (varValue v); [apply IH|done].
Qed.
End Relocation.

Lemma store_values_shift s vs rs l :
  store_values s (map (shift (length vs)) rs) (vs ++ l) = vs ++ store_values s rs l.
Proof.
  unfold store_values. revert l.
  induction rs as [|r rs IH]; intros l; [done|].
  cbn [map fold_left shift var_addr]. by rewrite alter_off, IH.
Qed.

(** Relocated references point above the objects that were there. *)
Lemma shifted_above n rs :
  Forall (fun r => (n <= var_addr r)%nat) (map (shift n) rs).
Proof.
  induction rs as [|r rs IH]; constructor; [|exact IH].
  unfold shift, off; cbn. lia.
Qed.

(** *** The closing statements of a part *)

Definition closing (model : ProbRef) (y0 y1 y2 : VarRef) : Py unit :=
  (subscript pulp.LpStatus (status_of model) ;;
   print (fstring "x1 value: " (varValue_of y1 / varValue_of y0)) ;;
   print (fstring "x2 value: " (varValue_of y2 / varValue_of y0)) ;;
   print (fstring "maximum value: " (pulp.value (objective_of model))) ;;
   print (fstring "solution time: " (solutionTime_of model)))%py.


Ltac run_closing :=
  repeat (progress (
    cbv beta iota delta [variables problems stdout solver_log prob_addr var_addr
                          world_of raised fst snd];
    repeat match goal with
    | H : _ = _ |- _ => rewrite H
    | H : forall _, _ = _ |- _ => rewrite H
    | H : forall _ _, _ = _ |- _ => rewrite H
    end)).

Lemma closing_run vs l ps p out log i0 i1 i2 a0 a1 a2 obj ov :
  l !! i0 = Some a0 -> l !! i1 = Some a1 -> l !! i2 = Some a2 ->
  objective p = Some (shift_expr (length vs) obj) ->
  value_terms l (terms obj) (constant obj) = Some ov ->
  let n := length vs in
  let o := closing (mkProbRef (length ps))
             (mkVarRef (off n i0)) (mkVarRef (off n i1)) (mkVarRef (off n i2))
             (mkWorld (vs ++ l) (ps ++ [p]) out log) in
  let r := closing_report (varValue a0) (varValue a1) (varValue a2) ov (solutionTime p) in
  world_of o = mkWorld (vs ++ l) (ps ++ [p]) (out ++ fst r) log /\ raised o = snd r.
Proof.
  intros H0 H1 H2 Hobj Hov n o r. subst n o r.
  unfold closing, closing_report, subscript, status_of, objective_of, solutionTime_of,
    problem_attr, print, fstring, truediv, varValue_of, pulp.value, ret, raise.
  unfold bind.
  assert (Hv : forall ts c,
             value_terms (vs ++ l) (terms (shift_expr (length vs) (mkExpr ts c)))
                         (constant (shift_expr (length vs) (mkExpr ts c))) =
             value_terms l ts c) by (intros; apply value_terms_shift).
  destruct obj as [ts c]. cbn [terms constant] in Hov.
  pose proof (@lookup_last LpProblem) as Hlast.
  pose proof (lookup_off vs l) as Hoff.
  run_closing.
  destruct (truediv_value (to_value (varValue a1)) (to_value (varValue a0))) as [e|x1];
    run_closing; [by rewrite app_nil_r|].
  destruct (truediv_value (to_value (varValue a2)) (to_value (varValue a0))) as [e|x2];
    run_closing; [done|].
  by rewrite <- !app_assoc.
Qed.

(** *** Running a part *)

Ltac step L := erewrite bind_Returned by (apply L); cbn [length app].

Ltac eqb_step :=
  match goal with
  | |- context [VarRef_eqb (mkVarRef (off ?n ?i)) (mkVarRef (off ?n ?j))] =>
      rewrite (VarRef_eqb_off n i j); cbv [Nat.eqb]
  end.

Ltac rmul_step :=
  match goal with
  | |- context [rmul ?c ?e] => rewrite (rmul_nonzero c e) by reflexivity
  end.

(** Evaluate the expressions of a problem under construction. *)
Ltac build :=
  repeat rmul_step;
  repeat (progress (
    cbv [iadd_problem le ge eq_ add sub of_variable of_number addterm fold_left map
         fst snd terms constant expr csense objective constraints problem_name sense
         status solutionTime app negb];
    repeat eqb_step)).

(** Present the built problem [P] as a problem at addresses 0, 1, ... moved
    [length vs] places up. *)
Ltac relocate vs :=
  match goal with
  | |- context [mkWorld _ (_ ++ [?P]) _ _] =>
      let H := fresh "EP" in
      eassert (H : P = _) by (build; reflexivity);
      rewrite H; clear H
  end;
  match goal with
  | |- context [mkWorld _ (_ ++ [?P]) _ _] =>
      let f := eval pattern (off (length vs)) in P in
      match f with
      | ?F _ => change P with (shift_problem (length vs) (F (fun i : nat => i)))
      end
  end.

Section Run.
Variable solver : Solver.

(** The whole world a part leaves, with the problem object it built. *)
Lemma part1_world w :
  let o := part1 solver w in
  let s := solver model1 in
  exists p,
    world_of o = mkWorld (variables w ++ solved_variables s decls1) (problems w ++ [p])
                         (stdout w ++ fst (report s)) (solver_log w ++ [model1]) /\
    raised o = snd (report s) /\
    resolve (variables w ++ solved_variables s decls1) p = Some model1 /\
    status p = sol_status s /\ solutionTime p = sol_time s /\
    Forall (fun r => (length (variables w) <= var_addr r)%nat) (problem_variables p).
Proof.
  destruct w as [vs ps out log]. cbn [variables problems stdout solver_log].
  eassert (E : part1 solver (mkWorld vs ps out log) = _).
  { unfold part1. rewrite <- (app_nil_r vs) at 1.
    step LpProblem_run.
    do 3 step LpVariable_run.
    do 4 step iadd_run.
    relocate vs.
    erewrite bind_Returned; cycle 1.
    { apply solve_run. rewrite resolve_shift. vm_compute. reflexivity. }
    reflexivity. }
  rewrite E. clear E.
  match goal with |- context [solver ?m'] => change m' with model1 end.
  rewrite problem_variables_shift, store_values_shift.
  set (s := solver model1).
  match goal with |- context [vs ++ store_values s ?rs ?l] =>
    change (store_values s rs l) with (solved_variables s decls1) end.
  match goal with |- context [shift_problem (length vs) ?P0] => set (P := P0) end.
  exists (shift_problem (length vs)
            (mkProblem (problem_name P) (sense P) (objective P) (constraints P)
                       (sol_status s) (sol_time s))).
  rewrite resolve_shift, problem_variables_shift.
  split; [|split; [|split; [vm_compute; reflexivity|
    split; [reflexivity | split; [reflexivity | apply shifted_above]]]]];
  unfold report, solved_objective;
  destruct (sol_values s "y1") as [q1|] eqn:E1;
  destruct (sol_values s "y2") as [q2|] eqn:E2;
  match goal with
  | |- context [mkWorld (vs ++ ?l) (ps ++ [?p]) ?o ?lg] =>
      edestruct (closing_run vs l ps p o lg 0%nat 1%nat 2%nat) as [Hw Hr];
      [ reflexivity | reflexivity | reflexivity | reflexivity
      | unfold solved_variables, decls2, decls1;
        cbn [map app value_terms terms constant lookup list_lookup var_addr varValue
             decl_name];
        rewrite E1, ?E2; reflexivity
      | ]
  end;
  unfold closing in Hw, Hr; rewrite ?Hw, ?Hr; clear Hw Hr;
  cbn [variables stdout solver_log solved_variables map decls1 decls2 app varValue
       solutionTime decl_name];
  rewrite ?E1, ?E2; reflexivity.
Qed.


Lemma part2_world w :
  let o := part2 solver w in
  let s := solver model2 in
  exists p,
    world_of o = mkWorld (variables w ++ solved_variables s decls2) (problems w ++ [p])
                         (stdout w ++ fst (report s)) (solver_log w ++ [model2]) /\
    raised o = snd (report s) /\
    resolve (variables w ++ solved_variables s decls2) p = Some model2 /\
    status p = sol_status s /\ solutionTime p = sol_time s /\
    Forall (fun r => (length (variables w) <= var_addr r)%nat) (problem_variables p).
Proof.
  destruct w as [vs ps out log]. cbn [variables problems stdout solver_log].
  eassert (E : part2 solver (mkWorld vs ps out log) = _).
  { unfold part2. rewrite <- (app_nil_r vs) at 1.
    step LpProblem_run.
    do 5 step LpVariable_run.
    do 10 step iadd_run.
    relocate vs.
    erewrite bind_Returned; cycle 1.
    { apply solve_run. rewrite resolve_shift. vm_compute. reflexivity. }
    reflexivity. }
  rewrite E. clear E.
  match goal with |- context [solver ?m'] => change m' with model2 end.
  rewrite problem_variables_shift, store_values_shift.
  set (s := solver model2).
  match goal with |- context [vs ++ store_values s ?rs ?l] =>
    change (store_values s rs l) with (solved_variables s decls2) end.
  match goal with |- context [shift_problem (length vs) ?P0] => set (P := P0) end.
  exists (shift_problem (length vs)
            (mkProblem (problem_name P) (sense P) (objective P) (constraints P)
                       (sol_status s) (sol_time s))).
  rewrite resolve_shift, problem_variables_shift.
  split; [|split; [|split; [vm_compute; reflexivity|
    split; [reflexivity | split; [reflexivity | apply shifted_above]]]]];
  unfold report, solved_objective;
  destruct (sol_values s "y1") as [q1|] eqn:E1;
  destruct (sol_values s "y2") as [q2|] eqn:E2;
  match goal with
  | |- context [mkWorld (vs ++ ?l) (ps ++ [?p]) ?o ?lg] =>
      edestruct (closing_run vs l ps p o lg 0%nat 1%nat 2%nat) as [Hw Hr];
      [ reflexivity | reflexivity | reflexivity | reflexivity
      | unfold solved_variables, decls2, decls1;
        cbn [map app value_terms terms constant lookup list_lookup var_addr varValue
             decl_name];
        rewrite E1, ?E2; reflexivity
      | ]
  end;
  unfold closing in Hw, Hr; rewrite ?Hw, ?Hr; clear Hw Hr;
  cbn [variables stdout solver_log solved_variables map decls1 decls2 app varValue
       solutionTime decl_name];
  rewrite ?E1, ?E2; reflexivity.
Qed.

Lemma part1_run w :
  let o := part1 solver w in
  let s := solver model1 in
  variables (world_of o) = variables w ++ solved_variables s decls1 /\
  stdout (world_of o) = stdout w ++ fst (report s) /\
  solver_log (world_of o) = solver_log w ++ [model1] /\
  raised o = snd (report s).
Proof.
  destruct (part1_world w) as (p & Hw & Hr & _). cbv zeta.
  rewrite Hw, Hr. auto.
Qed.

Lemma part2_run w :
  let o := part2 solver w in
  let s := solver model2 in
  variables (world_of o) = variables w ++ solved_variables s decls2 /\
  stdout (world_of o) = stdout w ++ fst (report s) /\
  solver_log (world_of o) = solver_log w ++ [model2] /\
  raised o = snd (report s).
Proof.
  destruct (part2_world w) as (p & Hw & Hr & _). cbv zeta.
  rewrite Hw, Hr. auto.
Qed.

End Run.

(** ** What the two models mean *)

Ltac model_props :=
  cbv [feasible model1 model2 decls1 decls2 m_constraints m_variables m_objective
       objective_value the_objective c_first c_second c_normalization c_upper c_link_ge
       c_link_le app forallb holds in_domain in_category eval fold_right terms constant
       expr csense decl_name decl_lowBound decl_cat fst snd];
  rewrite ?andb_true_r, ?andb_true_l, ?andb_true_iff, ?orb_true_iff,
    ?Qle_bool_iff, ?Qeq_bool_iff.

(** Part 1: the feasible points. *)
Lemma feasible1_iff (env : Assignment) :
  feasible model1 env = true <->
  (-6 * env "y0" + 1.5 * env "y1" + env "y2" <= 0 /\
   -20 * env "y0" + 3.0 * env "y1" + 4 * env "y2" <= 0 /\
   10 * env "y0" + 4.0 * env "y1" + 4.1 * env "y2" == 1) /\
  0 <= env "y0" /\ 0 <= env "y1" /\ 0 <= env "y2".
Proof. model_props. split; intros H; decompose [and] H; repeat split; lra. Qed.

(** Part 2: the feasible points. *)
Lemma feasible2_iff (env : Assignment) :
  feasible model2 env = true <->
  (10 * env "y0" + 4.0 * env "y1" + 4.1 * env "y2" == 1 /\
   -6 * env "y0" + 1.5 * env "y1" + env "y2" <= 0 /\
   -20 * env "y0" + 3.0 * env "y1" + 4 * env "y2" <= 0) /\
  (env "y1" <= 0.127 * env "z1" /\
   -0.032 <= env "y1" - env "y0" - 0.032 * env "z1" /\
   env "y1" - env "y0" + 0.032 * env "z1" <= 0.032) /\
  (env "y2" <= 0.127 * env "z2" /\
   -0.032 <= env "y2" - env "y0" - 0.032 * env "z2" /\
   env "y2" - env "y0" + 0.032 * env "z2" <= 0.032) /\
  (0 <= env "y0" /\ 0 <= env "y1" /\ 0 <= env "y2") /\
  (env "z1" == 0 \/ env "z1" == 1) /\ (env "z2" == 0 \/ env "z2" == 1).
Proof.
  model_props.
  split; intros H; decompose [and] H; clear H; repeat split; try lra; assumption.
Qed.

Lemma objective1 env : objective_value model1 env == 1.8 * env "y1" + 1.7 * env "y2".
Proof. cbv [objective_value model1 m_objective the_objective eval fold_right terms constant fst snd]. lra. Qed.

Lemma objective2 env : objective_value model2 env == 1.8 * env "y1" + 1.7 * env "y2".
Proof. cbv [objective_value model2 m_objective the_objective eval fold_right terms constant fst snd]. lra. Qed.

(** ** The optima of the two models *)

(** The vertex where both inequalities of Part 1 are tight. *)
Definition vertex1 : Assignment := fun x =>
  if String.eqb x "y0" then 15 # 476
  else if String.eqb x "y1" then 5 # 119
  else if String.eqb x "y2" then 15 # 119
  else 0.

(** The point of Part 2 with both binary decisions taken. *)
Definition vertex2 : Assignment := fun x =>
  if String.eqb x "z1" then 1
  else if String.eqb x "z2" then 1
  else 10 # 181.

Lemma vertex1_feasible : feasible model1 vertex1 = true.
Proof. vm_compute. reflexivity. Qed.

Lemma vertex2_feasible : feasible model2 vertex2 = true.
Proof. vm_compute. reflexivity. Qed.

Lemma bound1 env :
  feasible model1 env = true -> objective_value model1 env <= 69 # 238.
Proof. rewrite feasible1_iff, objective1. intros H. decompose [and] H. lra. Qed.

Lemma bound2 env :
  feasible model2 env = true -> objective_value model2 env <= 35 # 181.
Proof.
  rewrite feasible2_iff, objective2.
  intros [[A1 [A2 A3]] [[B1 [B2 B3]] [[C1 [C2 C3]] [[D0 [D1 D2]] [[Z1|Z1] [Z2|Z2]]]]]]; lra.
Qed.

Lemma vertex1_optimal : optimal model1 vertex1.
Proof.
  split; [apply vertex1_feasible|]. intros env' H. cbn [model1 m_sense].
  apply bound1 in H. eapply Qle_trans; [exact H|]. vm_compute. discriminate.
Qed.

Lemma vertex2_optimal : optimal model2 vertex2.
Proof.
  split; [apply vertex2_feasible|]. intros env' H. cbn [model2 m_sense].
  apply bound2 in H. eapply Qle_trans; [exact H|]. vm_compute. discriminate.
Qed.

(** The optimum of Part 1 is attained at [vertex1] only. *)
Lemma optimal1_unique env :
  optimal model1 env ->
  env "y0" == 15 # 476 /\ env "y1" == 5 # 119 /\ env "y2" == 15 # 119.
Proof.
  intros [Hf Hmax]. specialize (Hmax vertex1 vertex1_feasible).
  cbn [model1 m_sense] in Hmax. rewrite !objective1 in Hmax.
  change (vertex1 "y1") with (5 # 119) in Hmax.
  change (vertex1 "y2") with (15 # 119) in Hmax.
  apply feasible1_iff in Hf. decompose [and] Hf. repeat split; lra.
Qed.

(** The optimum of Part 2 is attained with both decisions taken only. *)
Lemma optimal2_unique env :
  optimal model2 env ->
  env "y0" == 10 # 181 /\ env "y1" == 10 # 181 /\ env "y2" == 10 # 181 /\
  env "z1" == 1 /\ env "z2" == 1.
Proof.
  intros [Hf Hmax]. specialize (Hmax vertex2 vertex2_feasible).
  cbn [model2 m_sense] in Hmax. rewrite !objective2 in Hmax.
  change (vertex2 "y1") with (10 # 181) in Hmax.
  change (vertex2 "y2") with (10 # 181) in Hmax.
  apply feasible2_iff in Hf.
  destruct Hf as [[A1 [A2 A3]] [[B1 [B2 B3]] [[C1 [C2 C3]] [[D0 [D1 D2]] [[Z1|Z1] [Z2|Z2]]]]]]; repeat split; lra.
Qed.

(** * The claims *)

(** C3. Part 1 hands the solver, exactly once, the model [model1]: three
    continuous variables y0, y1, y2 with lower bound 0, three constraints
    (-6*y0 + 1.5*y1 + y2 <= 0, -20*y0 + 3.0*y1 + 4*y2 <= 0 and
    10*y0 + 4.0*y1 + 4.1*y2 = 1) and one objective, 1.8*y1 + 1.7*y2, to
    maximize. *)
Theorem part1_model (solver : Solver) (w : World) :
  solver_log (world_of (part1 solver w)) = solver_log w ++ [model1] /\
  m_sense model1 = LpMaximize /\
  m_variables model1 =
    [ mkDecl "y0" (Some 0) LpContinuous;
      mkDecl "y1" (Some 0) LpContinuous;
      mkDecl "y2" (Some 0) LpContinuous ] /\
  length (m_constraints model1) = 3%nat /\
  (exists e, m_objective model1 = Some e /\
     forall env, eval env e == 1.8 * env "y1" + 1.7 * env "y2") /\
  forall env : Assignment,
    Forall2 (fun c P => holds env c = true <-> P) (m_constraints model1)
      [ -6 * env "y0" + 1.5 * env "y1" + env "y2" <= 0;
        -20 * env "y0" + 3.0 * env "y1" + 4 * env "y2" <= 0;
        10 * env "y0" + 4.0 * env "y1" + 4.1 * env "y2" == 1 ].
Proof.
  split; [apply (part1_run solver w)|].
  repeat split; try reflexivity.
  - exists the_objective. split; [reflexivity|]. intros env.
    cbv [the_objective eval fold_right terms constant fst snd]. lra.
  - intros env. repeat constructor; model_props; lra.
Qed.


(** C2. Under the bounds and the six linking constraints of Part 2, zi = 0
    forces yi = 0 and zi = 1 forces yi = y0; so when y0 > 0 each ratio
    yi / y0 is exactly 0 or exactly 1. *)
Theorem linking_forces_binary_ratio (env : Assignment) :
  forallb (in_domain env) (m_variables model2) = true ->
  forallb (holds env)
    [ c_upper "y1" "z1"; c_link_ge "y1" "z1"; c_link_le "y1" "z1";
      c_upper "y2" "z2"; c_link_ge "y2" "z2"; c_link_le "y2" "z2" ] = true ->
  ((env "z1" == 0 -> env "y1" == 0) /\ (env "z1" == 1 -> env "y1" == env "y0")) /\
  ((env "z2" == 0 -> env "y2" == 0) /\ (env "z2" == 1 -> env "y2" == env "y0")) /\
  (0 < env "y0" ->
   (env "y1" / env "y0" == 0 \/ env "y1" / env "y0" == 1) /\
   (env "y2" / env "y0" == 0 \/ env "y2" / env "y0" == 1)).
Proof.
  model_props.
  intros [D0 [D1 [D2 [Z1 Z2]]]] [B1 [B2 [B3 [C1 [C2 C3]]]]].
  assert (R : forall y, 0 < env "y0" ->
            (y == 0 -> y / env "y0" == 0) /\ (y == env "y0" -> y / env "y0" == 1)).
  { intros y Hpos. split; intros ->; field; lra. }
  split; [split; intros; lra|]. split; [split; intros; lra|].
  intros Hpos. split.
  - destruct Z1 as [Z|Z]; [left|right]; apply R; lra.
  - destruct Z2 as [Z|Z]; [left|right]; apply R; lra.
Qed.

Lemma linking_forces_binary_ratio_witness :
  (vertex2 "y1" / vertex2 "y0" == 0 \/ vertex2 "y1" / vertex2 "y0" == 1) /\
  (vertex2 "y2" / vertex2 "y0" == 0 \/ vertex2 "y2" / vertex2 "y0" == 1).
Proof.
  apply (linking_forces_binary_ratio vertex2); reflexivity.
Defined.

(** C8. Every feasible point of Part 2 is a feasible point of Part 1, whose
    three constraints are the first three of Part 2 in another order; the
    objectives are the same expression; hence no optimum of Part 2 exceeds an
    optimum of Part 1. *)
Theorem part2_refines_part1 :
  (forall env, feasible model2 env = true -> feasible model1 env = true) /\
  Permutation (m_constraints model1) (take 3 (m_constraints model2)) /\
  m_objective model2 = m_objective model1 /\
  (forall env1 env2,
     optimal model1 env1 -> optimal model2 env2 ->
     objective_value model2 env2 <= objective_value model1 env1).
Proof.
  assert (F : forall env, feasible model2 env = true -> feasible model1 env = true).
  { intros env. rewrite feasible2_iff, feasible1_iff. intros H. decompose [and] H.
    repeat split; assumption. }
  split; [exact F|]. split.
  - cbn [model1 model2 m_constraints take]. 
    apply Permutation_sym, (Permutation_cons_app [c_first; c_second] []). reflexivity.
  - split; [reflexivity|]. intros env1 env2 [_ H1] [H2 _].
    specialize (H1 env2 (F env2 H2)). exact H1.
Qed.

Lemma part2_refines_part1_witness :
  feasible model1 vertex2 = true /\
  objective_value model2 vertex2 <= objective_value model1 vertex1.
Proof.
  destruct part2_refines_part1 as [F [_ [_ O]]]. split.
  - apply F. reflexivity.
  - apply O; [apply vertex1_optimal | apply vertex2_optimal].
Defined.

(** ** Answers of the solver as assignments *)

Definition assignment_of (s : Solution) : Assignment := fun x =>
  match sol_values s x with Some q => q | None => 0 end.

(** The solver that answers a fixed point whatever the model. *)
Definition constant_solver (st : LpStatusCode) (env : Assignment) (t : Q) : Solver :=
  fun _ => mkSolution st (fun x => Some (env x)) t.

(** What is printed when the three values are there and y0 is not zero. *)
Lemma report_values s q0 q1 q2 :
  sol_values s "y0" = Some q0 -> sol_values s "y1" = Some q1 ->
  sol_values s "y2" = Some q2 -> ~ q0 == 0 ->
  report s =
    ([ mkLine "x1 value: " (PyFloat (q1 / q0));
       mkLine "x2 value: " (PyFloat (q2 / q0));
       mkLine "maximum value: " (PyFloat (0.00 + q1 * 1.8 + q2 * 1.7));
       mkLine "solution time: " (PyFloat (sol_time s)) ], None).
Proof.
  intros H0 H1 H2 Hnz. unfold report, solved_objective, closing_report.
  rewrite H0, H1, H2. cbn [to_value truediv_value].
  destruct (Qeq_bool q0 0) eqn:E; [|reflexivity].
  apply Qeq_bool_iff in E. contradiction.
Qed.

(** ** A solver that answers close to an optimum *)

(** [s] gives every variable of [m] a value, and each value is within [eps]
    of the value at one best feasible point of [m]. *)
Definition answers_near (eps : Q) (m : LpModel) (s : Solution) : Prop :=
  exists env, optimal m env /\
    forall d, In d (m_variables m) ->
      exists q, sol_values s (decl_name d) = Some q /\
                Qabs (q - env (decl_name d)) <= eps.

(** Half a unit of the ninth decimal: the accuracy of an answer written with
    nine decimals, as the comment of line 103 quotes the solved y0. *)
Definition accuracy : Q := 0.0000000005.

(** [q] is a binary64 number [m / 2^k] with [|m| < 2^53] and [k <= 1022]
    (the floats of magnitude 2^53 and more, and the subnormal ones, are left
    out). *)
Definition binary64 (q : Q) : bool :=
  let r := Qred q in
  (Z.abs (Qnum r) <? 2 ^ 53)%Z &&
  (Z.pos (Qden r) =? 2 ^ Z.log2 (Z.pos (Qden r)))%Z &&
  (Z.log2 (Z.pos (Qden r)) <=? 1022)%Z.

(** The optimum of Part 1 written with nine decimals, 0.031512605,
    0.042016807 and 0.126050420, and read back as binary64 numbers. *)
Definition stored1 : Assignment := fun x =>
  if String.eqb x "y0" then 1135361249083789 # 36028797018963968
  else if String.eqb x "y1" then 3027630021575969 # 72057594037927936
  else if String.eqb x "y2" then 1135361249083789 # 9007199254740992
  else 0.

(** The optimum of Part 2 written with nine decimals, 0.055248619 for the
    three continuous variables, and read back as binary64 numbers. *)
Definition stored2 : Assignment := fun x =>
  if String.eqb x "z1" then 1
  else if String.eqb x "z2" then 1
  else 497635319882269 # 9007199254740992.

(** The stored answers are floats, each the nearest one to its decimal. *)
Lemma stored_binary64 :
  forallb binary64 (map stored1 ["y0"; "y1"; "y2"] ++ map stored2 ["y0"; "y1"; "y2"; "z1"; "z2"])
  = true.
Proof. vm_compute. reflexivity. Qed.

Lemma stored_nearest :
  Qabs (stored1 "y0" - 0.031512605) <= 1 # 2 ^ 58 /\
  Qabs (stored1 "y1" - 0.042016807) <= 1 # 2 ^ 58 /\
  Qabs (stored1 "y2" - 0.126050420) <= 1 # 2 ^ 56 /\
  Qabs (stored2 "y0" - 0.055248619) <= 1 # 2 ^ 58.
Proof. repeat split; apply Qle_bool_iff; vm_compute; reflexivity. Qed.

Lemma stored1_near st t m : answers_near accuracy model1 (constant_solver st stored1 t m).
Proof.
  exists vertex1. split; [apply vertex1_optimal|].
  intros d [<-|[<-|[<-|[]]]]; (eexists; split; [reflexivity|]);
    apply Qle_bool_iff; vm_compute; reflexivity.
Qed.

Lemma stored2_near st t m : answers_near accuracy model2 (constant_solver st stored2 t m).
Proof.
  exists vertex2. split; [apply vertex2_optimal|].
  intros d [<-|[<-|[<-|[<-|[<-|[]]]]]]; (eexists; split; [reflexivity|]);
    apply Qle_bool_iff; vm_compute; reflexivity.
Qed.

(** The value of a variable of the model in an answer near [env]. *)
Lemma near_value eps m s env d :
  (forall d, In d (m_variables m) ->
     exists q, sol_values s (decl_name d) = Some q /\
               Qabs (q - env (decl_name d)) <= eps) ->
  In d (m_variables m) ->
  exists q, sol_values s (decl_name d) = Some q /\
            env (decl_name d) - eps <= q /\ q <= env (decl_name d) + eps.
Proof.
  intros H Hd. destruct (H d Hd) as (q & Hq & Hab). exists q. split; [exact Hq|].
  apply Qabs_Qle_condition in Hab. lra.
Qed.

(** A quotient within [t] of [c]. *)
Lemma ratio_within (a b c t : Q) :
  0 < b -> (c - t) * b <= a -> a <= (c + t) * b -> Qabs (a / b - c) <= t.
Proof.
  intros Hb Hlo Hhi.
  assert (L : c - t <= a / b) by (apply Qle_shift_div_l; assumption).
  assert (U : a / b <= c + t) by (apply Qle_shift_div_r; assumption).
  set (x := a / b) in *. apply Qabs_Qle_condition. lra.
Qed.

Lemma value_within (a c t : Q) : c - t <= a -> a <= c + t -> Qabs (a - c) <= t.
Proof. intros. apply Qabs_Qle_condition. lra. Qed.

(** C4. When the solver answers Part 1 to within the accuracy of an optimum,
    the solved values give x1 = y1/y0, x2 = y2/y0 and the objective within
    9 * 10^-8 of 4/3, 4 and 69/238, and of 1.3333333439111112, 4.0 and
    0.28991596659999996; Part 1 prints these three values and the time, and
    raises nothing. *)
Theorem part1_prints_optimum (solver : Solver) (w : World) :
  answers_near accuracy model1 (solver model1) ->
  exists q0 q1 q2,
    (sol_values (solver model1) "y0" = Some q0 /\
     sol_values (solver model1) "y1" = Some q1 /\
     sol_values (solver model1) "y2" = Some q2) /\
    let x1 := q1 / q0 in
    let x2 := q2 / q0 in
    let v := 0.00 + q1 * 1.8 + q2 * 1.7 in
    raised (part1 solver w) = None /\
    stdout (world_of (part1 solver w)) =
      stdout w ++ [ mkLine "x1 value: " (PyFloat x1);
                    mkLine "x2 value: " (PyFloat x2);
                    mkLine "maximum value: " (PyFloat v);
                    mkLine "solution time: " (PyFloat (sol_time (solver model1))) ] /\
    (Qabs (x1 - (4 # 3)) <= 0.00000009 /\
     Qabs (x2 - 4) <= 0.00000009 /\
     Qabs (v - (69 # 238)) <= 0.00000009) /\
    Qabs (x1 - 1.3333333439111112) <= 0.00000009 /\
    Qabs (x2 - 4.0) <= 0.00000009 /\
    Qabs (v - 0.28991596659999996) <= 0.00000009.
Proof.
  intros (env & Hopt & Hv).
  destruct (near_value _ _ _ _ (mkDecl "y0" (Some 0) LpContinuous) Hv ltac:(cbn; auto))
    as (q0 & V0 & L0 & U0).
  destruct (near_value _ _ _ _ (mkDecl "y1" (Some 0) LpContinuous) Hv ltac:(cbn; auto))
    as (q1 & V1 & L1 & U1).
  destruct (near_value _ _ _ _ (mkDecl "y2" (Some 0) LpContinuous) Hv ltac:(cbn; auto))
    as (q2 & V2 & L2 & U2).
  cbn [decl_name] in *. unfold accuracy in *.
  destruct (optimal1_unique env Hopt) as (E0 & E1 & E2).
  assert (Hpos : 0 < q0) by lra.
  assert (Hnz : ~ q0 == 0) by lra.
  destruct (part1_run solver w) as (_ & Hout & _ & Hr).
  rewrite (report_values _ _ _ _ V0 V1 V2 Hnz) in Hout, Hr.
  exists q0, q1, q2. split; [auto|]. cbv zeta.
  split; [exact Hr|]. split; [exact Hout|].
  repeat split; first [apply ratio_within; lra | apply value_within; lra].
Qed.

Lemma part1_prints_optimum_witness :
  exists q0 q1 q2,
    (q0 = stored1 "y0" /\ q1 = stored1 "y1" /\ q2 = stored1 "y2") /\
    raised (part1 (constant_solver LpStatusOptimal stored1 1) initial_world) = None /\
    Qabs (q1 / q0 - 1.3333333439111112) <= 0.00000009 /\
    Qabs (q2 / q0 - 4.0) <= 0.00000009 /\
    Qabs (0.00 + q1 * 1.8 + q2 * 1.7 - 0.28991596659999996) <= 0.00000009.
Proof.
  destruct (part1_prints_optimum (constant_solver LpStatusOptimal stored1 1) initial_world
              (stored1_near LpStatusOptimal 1 model1))
    as (q0 & q1 & q2 & (V0 & V1 & V2) & Hr & _ & _ & B1 & B2 & B3).
  exists q0, q1, q2. repeat split; try assumption.
  - injection V0. auto.
  - injection V1. auto.
  - injection V2. auto.
Defined.

(** C5. When the solver answers Part 2 to within the accuracy of an optimum,
    the solved values give x1 = y1/y0, x2 = y2/y0 and the objective within
    9 * 10^-8 of 1, 1 and 35/181, and of 1.0, 1.0 and 0.1933701665; Part 2
    prints these three values and the time, and raises nothing. *)
Theorem part2_prints_optimum (solver : Solver) (w : World) :
  answers_near accuracy model2 (solver model2) ->
  exists q0 q1 q2,
    (sol_values (solver model2) "y0" = Some q0 /\
     sol_values (solver model2) "y1" = Some q1 /\
     sol_values (solver model2) "y2" = Some q2) /\
    let x1 := q1 / q0 in
    let x2 := q2 / q0 in
    let v := 0.00 + q1 * 1.8 + q2 * 1.7 in
    raised (part2 solver w) = None /\
    stdout (world_of (part2 solver w)) =
      stdout w ++ [ mkLine "x1 value: " (PyFloat x1);
                    mkLine "x2 value: " (PyFloat x2);
                    mkLine "maximum value: " (PyFloat v);
                    mkLine "solution time: " (PyFloat (sol_time (solver model2))) ] /\
    (Qabs (x1 - 1) <= 0.00000009 /\
     Qabs (x2 - 1) <= 0.00000009 /\
     Qabs (v - (35 # 181)) <= 0.00000009) /\
    Qabs (x1 - 1.0) <= 0.00000009 /\
    Qabs (x2 - 1.0) <= 0.00000009 /\
    Qabs (v - 0.1933701665) <= 0.00000009.
Proof.
  intros (env & Hopt & Hv).
  destruct (near_value _ _ _ _ (mkDecl "y0" (Some 0) LpContinuous) Hv ltac:(cbn; auto))
    as (q0 & V0 & L0 & U0).
  destruct (near_value _ _ _ _ (mkDecl "y1" (Some 0) LpContinuous) Hv ltac:(cbn; auto))
    as (q1 & V1 & L1 & U1).
  destruct (near_value _ _ _ _ (mkDecl "y2" (Some 0) LpContinuous) Hv ltac:(cbn; auto))
    as (q2 & V2 & L2 & U2).
  cbn [decl_name] in *. unfold accuracy in *.
  destruct (optimal2_unique env Hopt) as (E0 & E1 & E2 & _).
  assert (Hpos : 0 < q0) by lra.
  assert (Hnz : ~ q0 == 0) by lra.
  destruct (part2_run solver w) as (_ & Hout & _ & Hr).
  rewrite (report_values _ _ _ _ V0 V1 V2 Hnz) in Hout, Hr.
  exists q0, q1, q2. split; [auto|]. cbv zeta.
  split; [exact Hr|]. split; [exact Hout|].
  repeat split; first [apply ratio_within; lra | apply value_within; lra].
Qed.

Lemma part2_prints_optimum_witness :
  exists q0 q1 q2,
    (q0 = stored2 "y0" /\ q1 = stored2 "y1" /\ q2 = stored2 "y2") /\
    raised (part2 (constant_solver LpStatusOptimal stored2 1) initial_world) = None /\
    Qabs (q1 / q0 - 1.0) <= 0.00000009 /\
    Qabs (q2 / q0 - 1.0) <= 0.00000009 /\
    Qabs (0.00 + q1 * 1.8 + q2 * 1.7 - 0.1933701665) <= 0.00000009.
Proof.
  destruct (part2_prints_optimum (constant_solver LpStatusOptimal stored2 1) initial_world
              (stored2_near LpStatusOptimal 1 model2))
    as (q0 & q1 & q2 & (V0 & V1 & V2) & Hr & _ & _ & B1 & B2 & B3).
  exists q0, q1, q2. repeat split; try assumption.
  - injection V0. auto.
  - injection V1. auto.
  - injection V2. auto.
Defined.

(** ** The script as a whole *)

Lemma script_unfold (solver : Solver) (w : World) :
  script solver w =
  match part1 solver w with
  | Returned _ w' => part2 solver w'
  | Raised e w' => Raised e w'
  end.
Proof. reflexivity. Qed.

(** Part 2 runs only if Part 1 raised nothing; what was printed and which
    models were solved add up. *)
Lemma script_run (solver : Solver) (w : World) :
  let r1 := report (solver model1) in
  let r2 := report (solver model2) in
  let o := script solver w in
  match snd r1 with
  | Some e =>
      raised o = Some e /\ stdout (world_of o) = stdout w ++ fst r1 /\
      solver_log (world_of o) = solver_log w ++ [model1]
  | None =>
      raised o = snd r2 /\ stdout (world_of o) = (stdout w ++ fst r1) ++ fst r2 /\
      solver_log (world_of o) = (solver_log w ++ [model1]) ++ [model2]
  end.
Proof.
  cbv zeta. rewrite script_unfold.
  destruct (part1_run solver w) as (_ & Hout & Hlog & Hr).
  destruct (part1 solver w) as [[] w1|e w1]; cbn [raised world_of] in *;
    rewrite <- Hr.
  - destruct (part2_run solver w1) as (_ & Hout2 & Hlog2 & Hr2).
    rewrite <- Hout, <- Hlog. auto.
  - auto.
Qed.

(** What is printed when y0 was solved to zero: nothing. *)
Lemma report_zero s q :
  sol_values s "y0" = Some q -> q == 0 ->
  fst (report s) = [] /\
  snd (report s) =
    Some (match sol_values s "y1" with Some _ => ZeroDivisionError | None => TypeError end).
Proof.
  intros H0 Hq. unfold report, closing_report. rewrite H0.
  apply Qeq_bool_iff in Hq.
  destruct (sol_values s "y1"); cbn [to_value truediv_value]; rewrite ?Hq; auto.
Qed.

(** C6. In both parts the ratio is computed without a guard: whenever the
    solver answers with y0 = 0, the part stops at the first division with an
    exception (ZeroDivisionError when y1 has a value), after the solver ran and
    before anything is printed; nothing in the script catches it. *)
Theorem zero_denominator_faults (solver : Solver) (w : World) :
  (forall q, sol_values (solver model1) "y0" = Some q -> q == 0 ->
     let o := part1 solver w in
     raised o =
       Some (match sol_values (solver model1) "y1" with
             | Some _ => ZeroDivisionError | None => TypeError end) /\
     stdout (world_of o) = stdout w /\
     solver_log (world_of o) = solver_log w ++ [model1] /\
     raised (script solver w) = raised o /\
     stdout (world_of (script solver w)) = stdout w) /\
  (forall q, sol_values (solver model2) "y0" = Some q -> q == 0 ->
     let o := part2 solver w in
     raised o =
       Some (match sol_values (solver model2) "y1" with
             | Some _ => ZeroDivisionError | None => TypeError end) /\
     stdout (world_of o) = stdout w /\
     solver_log (world_of o) = solver_log w ++ [model2] /\
     (forall w0, part1 solver w0 = Returned tt w ->
        raised (script solver w0) = raised o /\
        stdout (world_of (script solver w0)) = stdout w)).
Proof.
  split; intros q H0 Hq; cbv zeta.
  - destruct (part1_run solver w) as (_ & Hout & Hlog & Hr).
    destruct (report_zero _ _ H0 Hq) as [Hl He].
    rewrite Hl, app_nil_r in Hout. rewrite He in Hr.
    pose proof (script_run solver w) as Hs. cbv zeta in Hs.
    rewrite He, Hl, app_nil_r in Hs. destruct Hs as (Hs1 & Hs2 & _).
    rewrite Hr, Hs1. auto.
  - destruct (part2_run solver w) as (_ & Hout & Hlog & Hr).
    destruct (report_zero _ _ H0 Hq) as [Hl He].
    rewrite Hl, app_nil_r in Hout. rewrite He in Hr.
    repeat split; auto.
    + rewrite script_unfold, H. reflexivity.
    + rewrite script_unfold, H. exact Hout.
Qed.

Lemma zero_denominator_faults_witness :
  raised (part1 (constant_solver LpStatusOptimal (fun _ => 0) 1) initial_world) =
    Some ZeroDivisionError /\
  raised (part2 (constant_solver LpStatusOptimal (fun _ => 0) 1) initial_world) =
    Some ZeroDivisionError.
Proof.
  destruct (zero_denominator_faults
              (constant_solver LpStatusOptimal (fun _ => 0) 1) initial_world) as [H1 H2].
  split.
  - exact (proj1 (H1 0 eq_refl eq_refl)).
  - exact (proj1 (H2 0 eq_refl eq_refl)).
Defined.

(** ** Two runs *)

(** The printed lines but the one with the wall-clock time. *)
Definition without_time (l : list Line) : list Line :=
  List.filter (fun x => negb (String.eqb (text x) "solution time: ")) l.

(** Two solvers that answer the same values. *)
Definition same_values (sa sb : Solver) : Prop :=
  forall m x, sol_values (sa m) x = sol_values (sb m) x.

Lemma report_same_values (s s' : Solution) :
  (forall x, sol_values s x = sol_values s' x) ->
  snd (report s) = snd (report s') /\
  without_time (fst (report s)) = without_time (fst (report s')).
Proof.
  intros H. unfold report, solved_objective, closing_report. rewrite !H.
  destruct (truediv_value _ _); [auto|].
  destruct (truediv_value _ _); auto.
Qed.

Lemma report_same_answer (s s' : Solution) :
  (forall x, sol_values s x = sol_values s' x) -> sol_time s = sol_time s' ->
  report s = report s'.
Proof.
  intros H Ht. unfold report, solved_objective. by rewrite !H, Ht.
Qed.

Lemma solved_variables_same (s s' : Solution) ds :
  (forall x, sol_values s x = sol_values s' x) ->
  solved_variables s ds = solved_variables s' ds.
Proof.
  intros H. unfold solved_variables. apply map_ext. intros d. by rewrite H.
Qed.

Lemma without_time_app l k : without_time (l ++ k) = without_time l ++ without_time k.
Proof. apply List.filter_app. Qed.

(** C7. Two runs of a part, or of the script, with solvers that answer the
    same values for the same model, store the same values in the variables,
    print the same ratios and objective and end the same way.  Only the
    solution time may differ. *)
Theorem same_values_same_results (sa sb : Solver) (w : World) :
  same_values sa sb ->
  (variables (world_of (part1 sa w)) = variables (world_of (part1 sb w)) /\
   without_time (stdout (world_of (part1 sa w))) =
     without_time (stdout (world_of (part1 sb w))) /\
   raised (part1 sa w) = raised (part1 sb w)) /\
  (variables (world_of (part2 sa w)) = variables (world_of (part2 sb w)) /\
   without_time (stdout (world_of (part2 sa w))) =
     without_time (stdout (world_of (part2 sb w))) /\
   raised (part2 sa w) = raised (part2 sb w)) /\
  (without_time (stdout (world_of (script sa w))) =
     without_time (stdout (world_of (script sb w))) /\
   raised (script sa w) = raised (script sb w)).
Proof.
  intros H.
  destruct (report_same_values _ _ (H model1)) as [R1 L1].
  destruct (report_same_values _ _ (H model2)) as [R2 L2].
  split; [|split].
  - destruct (part1_run sa w) as (Va & Oa & _ & Ra).
    destruct (part1_run sb w) as (Vb & Ob & _ & Rb).
    rewrite Va, Vb, Oa, Ob, Ra, Rb, !without_time_app, L1, R1.
    by rewrite (solved_variables_same _ _ _ (H model1)).
  - destruct (part2_run sa w) as (Va & Oa & _ & Ra).
    destruct (part2_run sb w) as (Vb & Ob & _ & Rb).
    rewrite Va, Vb, Oa, Ob, Ra, Rb, !without_time_app, L2, R2.
    by rewrite (solved_variables_same _ _ _ (H model2)).
  - pose proof (script_run sa w) as Sa. pose proof (script_run sb w) as Sb.
    cbv zeta in Sa, Sb. rewrite <- R1 in Sb.
    destruct (snd (report (sa model1))).
    + destruct Sa as (-> & -> & _), Sb as (-> & -> & _).
      by rewrite !without_time_app, L1.
    + destruct Sa as (-> & -> & _), Sb as (-> & -> & _).
      by rewrite !without_time_app, L1, L2, R2.
Qed.

Lemma same_values_same_results_witness :
  raised (script (constant_solver LpStatusOptimal vertex1 1) initial_world) =
  raised (script (constant_solver LpStatusInfeasible vertex1 2) initial_world).
Proof.
  apply (same_values_same_results
           (constant_solver LpStatusOptimal vertex1 1)
           (constant_solver LpStatusInfeasible vertex1 2) initial_world).
  intros m x. reflexivity.
Defined.

(** *** What Part 2 adds to a world *)

(** In the script, Part 2 starts from the world Part 1 leaves. *)
Lemma script_continues (solver : Solver) (w : World) :
  raised (part1 solver w) = None ->
  script solver w = part2 solver (world_of (part1 solver w)).
Proof.
  intros H. rewrite script_unfold.
  destruct (part1 solver w) as [[] w1|e w1]; [reflexivity | discriminate].
Qed.

(** What a run of Part 2 adds to the world [w] it starts from, [wf] being the
    world it leaves: new variable objects, one new problem object that refers
    to new variable objects only and is the model handed to the solver, new
    lines and one model in the log.  Whatever was in [w] is still there. *)
Definition part2_adds (w wf : World) (news : list LpVariable) (p : LpProblem)
    (lines : list Line) : Prop :=
  variables wf = variables w ++ news /\
  problems wf = problems w ++ [p] /\
  stdout wf = stdout w ++ lines /\
  solver_log wf = solver_log w ++ [model2] /\
  resolve (variables wf) p = Some model2 /\
  Forall (fun r => (length (variables w) <= var_addr r)%nat) (problem_variables p).

Lemma part2_adds_run (solver : Solver) (w : World) :
  exists p,
    part2_adds w (world_of (part2 solver w))
      (solved_variables (solver model2) decls2) p (fst (report (solver model2))) /\
    status p = sol_status (solver model2) /\
    solutionTime p = sol_time (solver model2) /\
    raised (part2 solver w) = snd (report (solver model2)).
Proof.
  destruct (part2_world solver w) as (p & Hw & Hr & Hm & Hs & Ht & Hf).
  exists p. unfold part2_adds. rewrite Hw. cbn [variables problems stdout solver_log].
  auto 10.
Qed.

(** C9. Part 2 works on objects of its own.  From whatever world it starts,
    and so whatever Part 1 built, solved and stored, it leaves the variable
    and problem objects that were there untouched, adds a new problem object
    over new variable objects, hands the solver the same model and prints the
    same lines: what it adds is a function of the solver's answer to Part 2
    only.  The same holds of the second half of the script, between two runs
    whose Part 1 ended without an exception, whatever Part 1 was answered.
    All that Part 1 decides is whether Part 2 runs: an exception in Part 1
    ends the script. *)
Theorem part2_independent (sa sb : Solver) (w w' : World) :
  sa model2 = sb model2 ->
  let news := solved_variables (sa model2) decls2 in
  let lines := fst (report (sa model2)) in
  (exists p p',
     part2_adds w (world_of (part2 sa w)) news p lines /\
     part2_adds w' (world_of (part2 sb w')) news p' lines /\
     status p = status p' /\ solutionTime p = solutionTime p' /\
     raised (part2 sa w) = raised (part2 sb w')) /\
  (raised (part1 sa w) = None -> raised (part1 sb w') = None ->
   exists p p',
     part2_adds (world_of (part1 sa w)) (world_of (script sa w)) news p lines /\
     part2_adds (world_of (part1 sb w')) (world_of (script sb w')) news p' lines /\
     status p = status p' /\ solutionTime p = solutionTime p' /\
     raised (script sa w) = raised (script sb w')) /\
  (raised (part1 sa w) <> None -> script sa w = part1 sa w).
Proof.
  intros H. cbv zeta.
  assert (G : forall u u', exists p p',
     part2_adds u (world_of (part2 sa u)) (solved_variables (sa model2) decls2) p
       (fst (report (sa model2))) /\
     part2_adds u' (world_of (part2 sb u')) (solved_variables (sa model2) decls2) p'
       (fst (report (sa model2))) /\
     status p = status p' /\ solutionTime p = solutionTime p' /\
     raised (part2 sa u) = raised (part2 sb u')).
  { intros u u'.
    destruct (part2_adds_run sa u) as (p & Ha & Sa & Ta & Ra).
    destruct (part2_adds_run sb u') as (p' & Hb & Sb & Tb & Rb).
    rewrite <- H in Hb, Sb, Tb, Rb.
    exists p, p'. rewrite Sa, Sb, Ta, Tb, Ra, Rb. auto 10. }
  split; [apply G|]. split.
  - intros Ha Hb. rewrite (script_continues sa w Ha), (script_continues sb w' Hb). apply G.
  - rewrite script_unfold. destruct (part1 sa w) as [[] w1|e w1]; [|reflexivity].
    intros Hn. contradiction.
Qed.

(** A solver that tells Part 1 from Part 2 by the number of constraints. *)
Definition solver_by_part (s1 s2 : Solution) : Solver := fun m =>
  if Nat.eqb (length (m_constraints m)) 3 then s1 else s2.

Lemma part2_independent_witness :
  raised (script (solver_by_part (mkSolution LpStatusOptimal (fun _ => Some 1) 1)
                                 (mkSolution LpStatusOptimal (fun _ => Some 1) 1))
                 initial_world) =
  raised (script (solver_by_part (mkSolution LpStatusInfeasible (fun _ => Some 2) 5)
                                 (mkSolution LpStatusOptimal (fun _ => Some 1) 1))
                 (mkWorld [mkVar "y0" None LpInteger (Some 7)]
                          [mkProblem "other" LpMinimize None [] LpStatusUnbounded 3] [] [])).
Proof.
  destruct (part2_independent
              (solver_by_part (mkSolution LpStatusOptimal (fun _ => Some 1) 1)
                              (mkSolution LpStatusOptimal (fun _ => Some 1) 1))
              (solver_by_part (mkSolution LpStatusInfeasible (fun _ => Some 2) 5)
                              (mkSolution LpStatusOptimal (fun _ => Some 1) 1))
              initial_world
              (mkWorld [mkVar "y0" None LpInteger (Some 7)]
                       [mkProblem "other" LpMinimize None [] LpStatusUnbounded 3] [] [])
              eq_refl) as (_ & S & _).
  destruct S as (p & p' & _ & _ & _ & _ & R).
  - vm_compute. reflexivity.
  - vm_compute. reflexivity.
  - exact R.
Defined.

(** C10. The status the solver returns is stored in the problem object,
    looked up and dropped: two solvers that differ in the status only give the
    same output and the same end, in each part and in the script; and whatever
    the status, a part whose three values are there with y0 not zero raises
    nothing and prints four lines: the two quotients y1/y0 and y2/y0, the
    objective value and the solution time. *)
Theorem status_is_ignored (sa sb : Solver) (w : World) :
  (forall m, (forall x, sol_values (sa m) x = sol_values (sb m) x) /\
             sol_time (sa m) = sol_time (sb m)) ->
  (stdout (world_of (part1 sa w)) = stdout (world_of (part1 sb w)) /\
   raised (part1 sa w) = raised (part1 sb w)) /\
  (stdout (world_of (part2 sa w)) = stdout (world_of (part2 sb w)) /\
   raised (part2 sa w) = raised (part2 sb w)) /\
  (stdout (world_of (script sa w)) = stdout (world_of (script sb w)) /\
   raised (script sa w) = raised (script sb w)) /\
  ((exists p, problems (world_of (part1 sb w)) = problems w ++ [p] /\
              status p = sol_status (sb model1)) /\
   (exists p, problems (world_of (part2 sb w)) = problems w ++ [p] /\
              status p = sol_status (sb model2))) /\
  (forall q0 q1 q2,
     sol_values (sa model1) "y0" = Some q0 -> sol_values (sa model1) "y1" = Some q1 ->
     sol_values (sa model1) "y2" = Some q2 -> ~ q0 == 0 ->
     raised (part1 sb w) = None /\
     stdout (world_of (part1 sb w)) =
       stdout w ++ [ mkLine "x1 value: " (PyFloat (q1 / q0));
                     mkLine "x2 value: " (PyFloat (q2 / q0));
                     mkLine "maximum value: " (PyFloat (0.00 + q1 * 1.8 + q2 * 1.7));
                     mkLine "solution time: " (PyFloat (sol_time (sa model1))) ]) /\
  (forall q0 q1 q2,
     sol_values (sa model2) "y0" = Some q0 -> sol_values (sa model2) "y1" = Some q1 ->
     sol_values (sa model2) "y2" = Some q2 -> ~ q0 == 0 ->
     raised (part2 sb w) = None /\
     stdout (world_of (part2 sb w)) =
       stdout w ++ [ mkLine "x1 value: " (PyFloat (q1 / q0));
                     mkLine "x2 value: " (PyFloat (q2 / q0));
                     mkLine "maximum value: " (PyFloat (0.00 + q1 * 1.8 + q2 * 1.7));
                     mkLine "solution time: " (PyFloat (sol_time (sa model2))) ]).
Proof.
  intros H.
  assert (E1 : report (sa model1) = report (sb model1))
    by (apply report_same_answer; apply H).
  assert (E2 : report (sa model2) = report (sb model2))
    by (apply report_same_answer; apply H).
  destruct (part1_run sa w) as (_ & O1a & _ & R1a).
  destruct (part1_world sb w) as (p1 & W1 & R1b & _ & S1 & _).
  destruct (part2_run sa w) as (_ & O2a & _ & R2a).
  destruct (part2_world sb w) as (p2 & W2 & R2b & _ & S2 & _).
  rewrite W1, W2. cbn [stdout problems]. rewrite <- E1, <- E2 in *.
  split; [by rewrite O1a, R1a, R1b|].
  split; [by rewrite O2a, R2a, R2b|].
  split.
  { pose proof (script_run sa w) as Sa. pose proof (script_run sb w) as Sb.
    cbv zeta in Sa, Sb. rewrite <- E1, <- E2 in Sb.
    destruct (snd (report (sa model1)));
      destruct Sa as (-> & -> & _), Sb as (-> & -> & _); auto. }
  split; [split; [exists p1 | exists p2]; auto|].
  split; intros q0 q1 q2 V0 V1 V2 Hnz.
  - rewrite (report_values _ _ _ _ V0 V1 V2 Hnz) in R1b |- *. auto.
  - rewrite (report_values _ _ _ _ V0 V1 V2 Hnz) in R2b |- *. auto.
Qed.

Lemma status_is_ignored_witness :
  stdout (world_of (part1 (constant_solver LpStatusInfeasible vertex1 1) initial_world)) =
    stdout initial_world ++
      [ mkLine "x1 value: " (PyFloat ((5 # 119) / (15 # 476)));
        mkLine "x2 value: " (PyFloat ((15 # 119) / (15 # 476)));
        mkLine "maximum value: " (PyFloat (0.00 + (5 # 119) * 1.8 + (15 # 119) * 1.7));
        mkLine "solution time: " (PyFloat 1) ].
Proof.
  refine (proj2 (proj1 (proj2 (proj2 (proj2 (proj2 (status_is_ignored
           (constant_solver LpStatusOptimal vertex1 1)
           (constant_solver LpStatusInfeasible vertex1 1) initial_world _)))))
           (15 # 476) (5 # 119) (15 # 119) eq_refl eq_refl eq_refl _)).
  - intros m. split; reflexivity.
  - discriminate.
Defined.

(** * Further properties of the script *)

(** ** The feasible regions *)

Lemma y0_bounds_in_model1 (env : Assignment) :
  feasible model1 env = true ->
  15 # 476 <= env "y0" /\ env "y0" <= 1 # 10 /\ ~ env "y0" == 0.
Proof.
  rewrite feasible1_iff. intros [[A1 [A2 A3]] [D0 [D1 D2]]]. repeat split; lra.
Qed.

(** The constraints of Part 1 keep the denominator variable away from zero:
    at every feasible point 15/476 <= y0 <= 1/10. *)
Theorem feasible1_y0_bounds (env : Assignment) :
  feasible model1 env = true ->
  15 # 476 <= env "y0" /\ env "y0" <= 1 # 10 /\ ~ env "y0" == 0.
Proof.
  rewrite feasible1_iff. intros [[A1 [A2 A3]] [D0 [D1 D2]]]. repeat split; lra.
Qed.

Lemma feasible1_y0_bounds_witness :
  15 # 476 <= vertex1 "y0" /\ vertex1 "y0" <= 1 # 10 /\ ~ vertex1 "y0" == 0.
Proof. apply (feasible1_y0_bounds vertex1). reflexivity. Defined.

(** With the constants 0.127 and 0.032 of the script, the model of Part 2 has
    one feasible point only: z1 = z2 = 1 and y0 = y1 = y2 = 10/181.  Leaving a
    decision out (zi = 0) would need y0 <= 0.032, and the normalization with
    yi <= y0 forces y0 >= 10/181. *)
Theorem model2_single_feasible_point (env : Assignment) :
  feasible model2 env = true <->
  env "y0" == 10 # 181 /\ env "y1" == 10 # 181 /\ env "y2" == 10 # 181 /\
  env "z1" == 1 /\ env "z2" == 1.
Proof.
  rewrite feasible2_iff. split.
  - intros [[A1 [A2 A3]] [[B1 [B2 B3]] [[C1 [C2 C3]] [[D0 [D1 D2]] [[Z1|Z1] [Z2|Z2]]]]]];
      repeat split; lra.
  - intros (E0 & E1 & E2 & Z1 & Z2). repeat split; try lra; right; assumption.
Qed.

(** ** The problem the script states in its comments *)

(** The ratio to maximize, lines 70-72 of the script. *)
Definition ratio (x1 x2 : Q) : Q :=
  (1.8 * x1 + 1.7 * x2) / (10 + 4.0 * x1 + 4.1 * x2).

(** Its constraints, lines 74-75. *)
Definition stated_constraints (x1 x2 : Q) : Prop :=
  1.5 * x1 + x2 <= 6 /\ 3.0 * x1 + 4 * x2 <= 20.

(** The point of the transformed problem for a point of the stated one. *)
Definition transformed (x1 x2 : Q) : Assignment := fun x =>
  if String.eqb x "y0" then / (10 + 4.0 * x1 + 4.1 * x2)
  else if String.eqb x "y1" then x1 / (10 + 4.0 * x1 + 4.1 * x2)
  else if String.eqb x "y2" then x2 / (10 + 4.0 * x1 + 4.1 * x2)
  else 0.


(** From the model of Part 1 back to the stated problem: the ratios
    x1 = y1/y0 and x2 = y2/y0 of a feasible point are not negative, satisfy
    the stated constraints, and the linear objective is the stated ratio. *)
Theorem part1_back_to_stated (env : Assignment) :
  feasible model1 env = true ->
  let x1 := env "y1" / env "y0" in
  let x2 := env "y2" / env "y0" in
  0 <= x1 /\ 0 <= x2 /\ stated_constraints x1 x2 /\
  objective_value model1 env == ratio x1 x2.
Proof.
  intros Hf. destruct (y0_bounds_in_model1 env Hf) as (Hlo & _ & Hnz).
  cbv zeta. rewrite objective1. apply feasible1_iff in Hf.
  destruct Hf as [[A1 [A2 A3]] [D0 [D1 D2]]].
  set (y0 := env "y0") in *. set (y1 := env "y1") in *. set (y2 := env "y2") in *.
  assert (Hpos : 0 < y0) by lra.
  assert (Hinv : 0 < / y0) by (apply Qinv_lt_0_compat; exact Hpos).
  unfold stated_constraints, ratio, Qdiv.
  assert (M : forall a, 0 <= a -> 0 <= a * / y0).
  { intros a Ha. apply Qmult_le_0_compat; lra. }
  assert (N : forall a b, a <= b * y0 -> a * / y0 <= b).
  { intros a b Hab. apply Qle_shift_div_r; assumption. }
  split; [apply M; exact D1|]. split; [apply M; exact D2|]. split; [split|].
  - assert (E : (1.5 * (y1 * / y0) + y2 * / y0) == ((1.5 * y1 + y2) * / y0)) by ring.
    rewrite E. clear E.
    apply N. lra.
  - assert (E : (3.0 * (y1 * / y0) + 4 * (y2 * / y0)) == ((3.0 * y1 + 4 * y2) * / y0)) by ring.
    rewrite E. clear E.
    apply N. lra.
  - assert (E : (10 + 4.0 * (y1 * / y0) + 4.1 * (y2 * / y0)) == ((10 * y0 + 4.0 * y1 + 4.1 * y2) * / y0)) by (field; exact Hnz).
    rewrite E. clear E.
    rewrite A3. field. exact Hnz.
Qed.

Lemma part1_back_to_stated_witness :
  stated_constraints (vertex1 "y1" / vertex1 "y0") (vertex1 "y2" / vertex1 "y0").
Proof. apply (part1_back_to_stated vertex1). reflexivity. Defined.

Lemma stated_to_model1 (x1 x2 : Q) :
  0 <= x1 -> 0 <= x2 -> stated_constraints x1 x2 ->
  feasible model1 (transformed x1 x2) = true /\
  objective_value model1 (transformed x1 x2) == ratio x1 x2.
Proof.
  intros H1 H2 [C1 C2]. rewrite feasible1_iff, objective1.
  change (transformed x1 x2 "y0") with (/ (10 + 4.0 * x1 + 4.1 * x2)).
  change (transformed x1 x2 "y1") with (x1 / (10 + 4.0 * x1 + 4.1 * x2)).
  change (transformed x1 x2 "y2") with (x2 / (10 + 4.0 * x1 + 4.1 * x2)).
  unfold ratio, Qdiv. set (d := 10 + 4.0 * x1 + 4.1 * x2).
  assert (Hd : 0 < d) by (unfold d; lra).
  assert (Hnz : ~ d == 0) by lra.
  assert (Hinv : 0 < / d) by (apply Qinv_lt_0_compat; exact Hd).
  assert (M : forall a, 0 <= a -> 0 <= a * / d).
  { intros a Ha. apply Qmult_le_0_compat; lra. }
  assert (N : forall a, a <= 0 -> a * / d <= 0).
  { intros a Ha. apply Qle_shift_div_r; [exact Hd | lra]. }
  repeat split.
  - assert (E : (-6 * / d + 1.5 * (x1 * / d) + x2 * / d) == ((1.5 * x1 + x2 - 6) * / d)) by ring.
    rewrite E. clear E.
    apply N. lra.
  - assert (E : (-20 * / d + 3.0 * (x1 * / d) + 4 * (x2 * / d)) == ((3.0 * x1 + 4 * x2 - 20) * / d)) by ring.
    rewrite E. clear E.
    apply N. lra.
  - assert (E : (10 * / d + 4.0 * (x1 * / d) + 4.1 * (x2 * / d)) == ((10 + 4.0 * x1 + 4.1 * x2) * / d)) by ring.
    rewrite E. clear E.
    fold d. field. exact Hnz.
  - apply Qlt_le_weak. exact Hinv.
  - apply M. exact H1.
  - apply M. exact H2.
  - ring.
Qed.

(** From the stated problem to the model of Part 1: every point x1, x2 >= 0
    that satisfies the stated constraints gives a feasible point of the model
    with the stated ratio as objective value. *)
Theorem stated_to_part1 (x1 x2 : Q) :
  0 <= x1 -> 0 <= x2 -> stated_constraints x1 x2 ->
  feasible model1 (transformed x1 x2) = true /\
  objective_value model1 (transformed x1 x2) == ratio x1 x2.
Proof.
  intros H1 H2 [C1 C2]. rewrite feasible1_iff, objective1.
  change (transformed x1 x2 "y0") with (/ (10 + 4.0 * x1 + 4.1 * x2)).
  change (transformed x1 x2 "y1") with (x1 / (10 + 4.0 * x1 + 4.1 * x2)).
  change (transformed x1 x2 "y2") with (x2 / (10 + 4.0 * x1 + 4.1 * x2)).
  unfold ratio, Qdiv. set (d := 10 + 4.0 * x1 + 4.1 * x2).
  assert (Hd : 0 < d) by (unfold d; lra).
  assert (Hnz : ~ d == 0) by lra.
  assert (Hinv : 0 < / d) by (apply Qinv_lt_0_compat; exact Hd).
  assert (M : forall a, 0 <= a -> 0 <= a * / d).
  { intros a Ha. apply Qmult_le_0_compat; lra. }
  assert (N : forall a, a <= 0 -> a * / d <= 0).
  { intros a Ha. apply Qle_shift_div_r; [exact Hd | lra]. }
  repeat split.
  - assert (E : (-6 * / d + 1.5 * (x1 * / d) + x2 * / d) == ((1.5 * x1 + x2 - 6) * / d)) by ring.
    rewrite E. clear E.
    apply N. lra.
  - assert (E : (-20 * / d + 3.0 * (x1 * / d) + 4 * (x2 * / d)) == ((3.0 * x1 + 4 * x2 - 20) * / d)) by ring.
    rewrite E. clear E.
    apply N. lra.
  - assert (E : (10 * / d + 4.0 * (x1 * / d) + 4.1 * (x2 * / d)) == ((10 + 4.0 * x1 + 4.1 * x2) * / d)) by ring.
    rewrite E. clear E.
    fold d. field. exact Hnz.
  - apply Qlt_le_weak. exact Hinv.
  - apply M. exact H1.
  - apply M. exact H2.
  - ring.
Qed.

Lemma stated_to_part1_witness :
  feasible model1 (transformed (4 # 3) 4) = true /\
  objective_value model1 (transformed (4 # 3) 4) == ratio (4 # 3) 4.
Proof.
  apply (stated_to_part1 (4 # 3) 4).
  - discriminate.
  - discriminate.
  - split; apply Qle_bool_iff; reflexivity.
Defined.

(** The stated ratio over x1, x2 >= 0 under the stated constraints is at most
    69/238, the value at x1 = 4/3, x2 = 4: the maximum Part 1 computes is the
    maximum of the stated continuous problem. *)
Theorem stated_continuous_maximum (x1 x2 : Q) :
  0 <= x1 -> 0 <= x2 -> stated_constraints x1 x2 ->
  ratio x1 x2 <= 69 # 238 /\ ratio (4 # 3) 4 == 69 # 238 /\
  stated_constraints (4 # 3) 4.
Proof.
  intros H1 H2 HC. destruct (stated_to_model1 x1 x2 H1 H2 HC) as [Hf Ho].
  split; [rewrite <- Ho; apply bound1; exact Hf|].
  split; [reflexivity|]. split; apply Qle_bool_iff; reflexivity.
Qed.

Lemma stated_continuous_maximum_witness : ratio 0 5 <= 69 # 238.
Proof.
  apply (stated_continuous_maximum 0 5).
  - discriminate.
  - discriminate.
  - split; apply Qle_bool_iff; reflexivity.
Defined.

(** The stated 0/1 problem, line 76: all four choices satisfy the stated
    constraints, the ratio is largest at x1 = x2 = 1, and its value there,
    35/181, is the objective value of every optimum of the model of Part 2. *)
Theorem stated_binary_maximum (x1 x2 : Q) :
  (x1 == 0 \/ x1 == 1) -> (x2 == 0 \/ x2 == 1) ->
  stated_constraints x1 x2 /\ ratio x1 x2 <= ratio 1 1 /\ ratio 1 1 == 35 # 181 /\
  forall env, optimal model2 env -> objective_value model2 env == ratio 1 1.
Proof.
  intros B1 B2.
  assert (R : ratio x1 x2 <= ratio 1 1).
  { unfold ratio. destruct B1 as [-> | ->], B2 as [-> | ->];
      apply Qle_bool_iff; reflexivity. }
  split; [unfold stated_constraints; destruct B1, B2; split; lra|].
  split; [exact R|]. split; [reflexivity|].
  intros env H. rewrite objective2.
  destruct (optimal2_unique env H) as (_ & E1 & E2 & _). rewrite E1, E2. reflexivity.
Qed.

Lemma stated_binary_maximum_witness : ratio 1 0 <= ratio 1 1.
Proof.
  apply (stated_binary_maximum 1 0); [right | left]; reflexivity.
Defined.

(** ** Runs of the script *)



(** ** Feasibility up to a tolerance

    A solver accepts an answer that satisfies every constraint, bound and
    integrality requirement up to a small tolerance. *)

Definition holds_within (tol : Q) (env : Assignment) (c : LpConstraint string) : bool :=
  match csense c with
  | LpConstraintLE => Qle_bool (eval env (expr c)) tol
  | LpConstraintGE => Qle_bool (- tol) (eval env (expr c))
  | LpConstraintEQ => Qle_bool (Qabs (eval env (expr c))) tol
  end.

Definition in_category_within (tol : Q) (k : LpCategory) (v : Q) : bool :=
  match k with
  | LpContinuous => true
  | LpInteger =>
      Qle_bool (v - inject_Z (Qfloor v)) tol || Qle_bool (inject_Z (Qceiling v) - v) tol
  | LpBinary => Qle_bool (Qabs v) tol || Qle_bool (Qabs (v - 1)) tol
  end.

Definition in_domain_within (tol : Q) (env : Assignment) (d : VarDecl) : bool :=
  match decl_lowBound d with
  | Some lb => Qle_bool (lb - tol) (env (decl_name d))
  | None => true
  end && in_category_within tol (decl_cat d) (env (decl_name d)).

Definition feasible_within (tol : Q) (m : LpModel) (env : Assignment) : bool :=
  forallb (holds_within tol env) (m_constraints m) &&
  forallb (in_domain_within tol env) (m_variables m).

Lemma forallb_pointwise {A} (f g : A -> bool) (l : list A) :
  (forall x, f x = g x) -> forallb f l = forallb g l.
Proof. intros H. induction l as [|x l IH]; [done|]. cbn. by rewrite H, IH. Qed.

Lemma Qabs_zero (x : Q) : Qabs x <= 0 <-> x == 0.
Proof.
  split.
  - intros H. apply Qabs_Qle_condition in H. lra.
  - intros ->. discriminate.
Qed.

(** With tolerance zero this is feasibility. *)
Lemma feasible_within_zero m env : feasible_within 0 m env = feasible m env.
Proof.
  unfold feasible_within, feasible. f_equal; apply forallb_pointwise.
  - intros c. unfold holds_within, holds.
    destruct (csense c); try reflexivity.
    apply eq_true_iff_eq. rewrite Qle_bool_iff, Qeq_bool_iff. apply Qabs_zero.
  - intros d. unfold in_domain_within, in_domain. f_equal.
    + destruct (decl_lowBound d) as [lb|]; [|reflexivity].
      apply eq_true_iff_eq. rewrite !Qle_bool_iff. split; intros; lra.
    + unfold in_category_within, in_category. set (v := env (decl_name d)).
      destruct (decl_cat d); [reflexivity| |]; apply eq_true_iff_eq.
      * rewrite orb_true_iff, !Qle_bool_iff, Qeq_bool_iff.
        pose proof (Qfloor_le v) as Hf. split.
        -- intros [Ha|Ha]; [lra|].
           pose proof (Qle_ceiling v) as Hc.
           assert (E : v == inject_Z (Qceiling v)) by lra.
           rewrite (Qfloor_comp _ _ E), Qfloor_Z. symmetry. exact E.
        -- intros E. left. lra.
      * rewrite !orb_true_iff, !Qle_bool_iff, !Qeq_bool_iff, !Qabs_zero. split.
        -- intros [Ha|Ha]; [left | right]; lra.
        -- intros [Ha|Ha]; [left | right]; lra.
Qed.

(** The tolerance: five units of the ninth decimal. *)
Definition tolerance : Q := 0.000000005.

Lemma feasible2_within (env : Assignment) :
  feasible_within tolerance model2 env = true ->
  let t := tolerance in
  (-t <= 10 * env "y0" + 4.0 * env "y1" + 4.1 * env "y2" - 1 <= t /\
   -6 * env "y0" + 1.5 * env "y1" + env "y2" <= t /\
   -20 * env "y0" + 3.0 * env "y1" + 4 * env "y2" <= t) /\
  (env "y1" - 0.127 * env "z1" <= t /\
   - t <= env "y1" - env "y0" - 0.032 * env "z1" + 0.032 /\
   env "y1" - env "y0" + 0.032 * env "z1" - 0.032 <= t) /\
  (env "y2" - 0.127 * env "z2" <= t /\
   - t <= env "y2" - env "y0" - 0.032 * env "z2" + 0.032 /\
   env "y2" - env "y0" + 0.032 * env "z2" - 0.032 <= t) /\
  (- t <= env "y0" /\ - t <= env "y1" /\ - t <= env "y2") /\
  (- t <= env "z1" <= t \/ - t <= env "z1" - 1 <= t) /\
  (- t <= env "z2" <= t \/ - t <= env "z2" - 1 <= t).
Proof.
  cbv [feasible_within model2 decls1 decls2 m_constraints m_variables
       the_objective c_first c_second c_normalization c_upper c_link_ge
       c_link_le app forallb holds_within in_domain_within in_category_within eval
       fold_right terms constant expr csense decl_name decl_lowBound decl_cat fst snd].
  rewrite ?andb_true_r, ?andb_true_l, ?andb_true_iff, ?orb_true_iff, ?Qle_bool_iff,
    ?Qabs_Qle_condition.
  unfold tolerance. cbv zeta.
  intros H. decompose [and] H. clear H.
  repeat split; lra.
Qed.

(** Any answer to Part 2 that is feasible up to the tolerance prints ratios and
    a maximum within 10^-7 of 1, 1 and 35/181: the constraints leave room
    around one point only. *)
Theorem part2_feasible_answer (solver : Solver) (w : World) (q0 q1 q2 : Q) :
  sol_values (solver model2) "y0" = Some q0 ->
  sol_values (solver model2) "y1" = Some q1 ->
  sol_values (solver model2) "y2" = Some q2 ->
  feasible_within tolerance model2 (assignment_of (solver model2)) = true ->
  let x1 := q1 / q0 in
  let x2 := q2 / q0 in
  let v := 0.00 + q1 * 1.8 + q2 * 1.7 in
  raised (part2 solver w) = None /\
  stdout (world_of (part2 solver w)) =
    stdout w ++ [ mkLine "x1 value: " (PyFloat x1);
                  mkLine "x2 value: " (PyFloat x2);
                  mkLine "maximum value: " (PyFloat v);
                  mkLine "solution time: " (PyFloat (sol_time (solver model2))) ] /\
  (Qabs (assignment_of (solver model2) "z1" - 1) <= tolerance /\
   Qabs (assignment_of (solver model2) "z2" - 1) <= tolerance) /\
  Qabs (x1 - 1) <= 0.0000001 /\ Qabs (x2 - 1) <= 0.0000001 /\
  Qabs (v - (35 # 181)) <= 0.0000001.
Proof.
  intros V0 V1 V2 Hf. apply feasible2_within in Hf. cbv zeta in Hf.
  unfold assignment_of in *. rewrite V0, V1, V2 in Hf. unfold tolerance in *.
  set (z1 := match sol_values (solver model2) "z1" with Some q => q | None => 0 end) in *.
  set (z2 := match sol_values (solver model2) "z2" with Some q => q | None => 0 end) in *.
  destruct Hf as [[A1 [A2 A3]] [[B1 [B2 B3]] [[C1 [C2 C3]] [[D0 [D1 D2]] [Z1 Z2]]]]].
  assert (T1 : -0.000000005 <= z1 - 1 <= 0.000000005) by (destruct Z1, Z2; lra).
  assert (T2 : -0.000000005 <= z2 - 1 <= 0.000000005) by (destruct Z1, Z2; lra).
  clear Z1 Z2.
  assert (Hpos : 0 < q0) by lra.
  assert (Hnz : ~ q0 == 0) by lra.
  destruct (part2_run solver w) as (_ & Hout & _ & Hr).
  rewrite (report_values _ _ _ _ V0 V1 V2 Hnz) in Hout, Hr.
  cbv zeta. split; [exact Hr|]. split; [exact Hout|].
  repeat split; first [apply ratio_within; lra | apply value_within; lra].
Qed.

Lemma part2_feasible_answer_witness :
  Qabs (stored2 "y1" / stored2 "y0" - 1) <= 0.0000001 /\
  Qabs (0.00 + stored2 "y1" * 1.8 + stored2 "y2" * 1.7 - (35 # 181)) <= 0.0000001.
Proof.
  destruct (part2_feasible_answer (constant_solver LpStatusOptimal stored2 1) initial_world
              (stored2 "y0") (stored2 "y1") (stored2 "y2") eq_refl eq_refl eq_refl)
    as (_ & _ & _ & B1 & _ & B3).
  - vm_compute. reflexivity.
  - split; [exact B1 | exact B3].
Defined.

(** The exact point is not feasible for a binary64 answer, the stored one is
    feasible up to the tolerance. *)
Lemma stored2_feasibility :
  feasible model2 stored2 = false /\ feasible_within tolerance model2 stored2 = true.
Proof. split; vm_compute; reflexivity. Qed.

(** When the solver leaves y2 without a value, a part prints its first line
    and stops with a TypeError at the second division. *)
Theorem missing_y2_stops_after_one_line (solver : Solver) (w : World) (q0 q1 : Q) :
  ~ q0 == 0 ->
  (sol_values (solver model1) "y0" = Some q0 ->
   sol_values (solver model1) "y1" = Some q1 ->
   sol_values (solver model1) "y2" = None ->
   raised (part1 solver w) = Some TypeError /\
   stdout (world_of (part1 solver w)) =
     stdout w ++ [mkLine "x1 value: " (PyFloat (q1 / q0))]) /\
  (sol_values (solver model2) "y0" = Some q0 ->
   sol_values (solver model2) "y1" = Some q1 ->
   sol_values (solver model2) "y2" = None ->
   raised (part2 solver w) = Some TypeError /\
   stdout (world_of (part2 solver w)) =
     stdout w ++ [mkLine "x1 value: " (PyFloat (q1 / q0))]).
Proof.
  intros Hnz.
  assert (R : forall s, sol_values s "y0" = Some q0 -> sol_values s "y1" = Some q1 ->
                sol_values s "y2" = None ->
                report s = ([mkLine "x1 value: " (PyFloat (q1 / q0))], Some TypeError)).
  { intros s V0 V1 V2. unfold report, closing_report. rewrite V0, V1, V2.
    cbn [to_value truediv_value].
    destruct (Qeq_bool q0 0) eqn:E; [|reflexivity].
    apply Qeq_bool_iff in E. contradiction. }
  split; intros V0 V1 V2.
  - destruct (part1_run solver w) as (_ & Hout & _ & Hr).
    rewrite (R _ V0 V1 V2) in Hout, Hr. auto.
  - destruct (part2_run solver w) as (_ & Hout & _ & Hr).
    rewrite (R _ V0 V1 V2) in Hout, Hr. auto.
Qed.

Lemma missing_y2_stops_after_one_line_witness :
  raised (part1 (fun _ => mkSolution LpStatusUndefined
                    (fun x => if String.eqb x "y2" then None else Some 1) 0)
                initial_world) = Some TypeError.
Proof.
  refine (proj1 (proj1 (missing_y2_stops_after_one_line
            (fun _ => mkSolution LpStatusUndefined
                        (fun x => if String.eqb x "y2" then None else Some 1) 0)
            initial_world 1 1 _) eq_refl eq_refl eq_refl)).
  discriminate.
Defined.

(** When the solver leaves y0 or y1 without a value, as an unsolved model
    does, a part prints nothing and stops with a TypeError. *)
Theorem missing_value_raises_TypeError (solver : Solver) (w : World) :
  (sol_values (solver model1) "y0" = None \/ sol_values (solver model1) "y1" = None ->
   raised (part1 solver w) = Some TypeError /\
   stdout (world_of (part1 solver w)) = stdout w /\
   raised (script solver w) = Some TypeError) /\
  (sol_values (solver model2) "y0" = None \/ sol_values (solver model2) "y1" = None ->
   raised (part2 solver w) = Some TypeError /\
   stdout (world_of (part2 solver w)) = stdout w).
Proof.
  assert (R : forall s, sol_values s "y0" = None \/ sol_values s "y1" = None ->
                report s = ([], Some TypeError)).
  { intros s [V|V]; unfold report, closing_report; rewrite V.
    - destruct (sol_values s "y1"); reflexivity.
    - destruct (sol_values s "y0"); reflexivity. }
  split; intros V.
  - destruct (part1_run solver w) as (_ & Hout & _ & Hr).
    pose proof (script_run solver w) as Hs. cbv zeta in Hs.
    rewrite (R _ V) in Hout, Hr, Hs. cbn [fst snd] in *.
    rewrite app_nil_r in Hout. destruct Hs as [Hs _]. auto.
  - destruct (part2_run solver w) as (_ & Hout & _ & Hr).
    rewrite (R _ V) in Hout, Hr. cbn [fst snd] in *.
    rewrite app_nil_r in Hout. auto.
Qed.

Lemma missing_value_raises_TypeError_witness :
  raised (script (fun _ => mkSolution LpStatusNotSolved (fun _ => None) 0) initial_world) =
  Some TypeError.
Proof.
  refine (proj2 (proj2 (proj1 (missing_value_raises_TypeError
            (fun _ => mkSolution LpStatusNotSolved (fun _ => None) 0) initial_world) _))).
  left. reflexivity.
Defined.


(** With y0 solved to zero Part 1 raises. *)
Lemma part1_raises_on_zero (solver : Solver) (w : World) (q : Q) :
  sol_values (solver model1) "y0" = Some q -> q == 0 ->
  raised (part1 solver w) =
    Some (match sol_values (solver model1) "y1" with
          | Some _ => ZeroDivisionError | None => TypeError end).
Proof.
  intros H0 Hq. destruct (part1_run solver w) as (_ & _ & _ & Hr).
  rewrite Hr. apply (report_zero _ _ H0 Hq).
Qed.

(** The solver is called once or twice: Part 2 is not reached when Part 1
    ends with an exception, and then nothing of Part 2 is printed; otherwise
    the two models are solved in order. *)
Theorem script_solver_calls (solver : Solver) (w : World) :
  (raised (part1 solver w) <> None ->
   solver_log (world_of (script solver w)) = solver_log w ++ [model1] /\
   stdout (world_of (script solver w)) = stdout (world_of (part1 solver w)) /\
   raised (script solver w) = raised (part1 solver w)) /\
  (raised (part1 solver w) = None ->
   solver_log (world_of (script solver w)) = solver_log w ++ [model1; model2] /\
   stdout (world_of (script solver w)) =
     stdout (world_of (part1 solver w)) ++ fst (report (solver model2)) /\
   raised (script solver w) = snd (report (solver model2))).
Proof.
  destruct (part1_run solver w) as (_ & Hout & _ & Hr).
  pose proof (script_run solver w) as Hs. cbv zeta in Hs.
  rewrite Hout, Hr.
  destruct (snd (report (solver model1))) as [e|]; destruct Hs as (H1 & H2 & H3).
  - split; [auto | discriminate].
  - split; [intros H; contradiction|]. intros _.
    rewrite H3, <- app_assoc. auto.
Qed.

Lemma script_solver_calls_witness :
  solver_log (world_of (script (constant_solver LpStatusOptimal (fun _ => 0) 1)
                               initial_world)) =
  solver_log initial_world ++ [model1].
Proof.
  refine (proj1 (proj1 (script_solver_calls
            (constant_solver LpStatusOptimal (fun _ => 0) 1) initial_world) _)).
  rewrite (part1_raises_on_zero
             (constant_solver LpStatusOptimal (fun _ => 0) 1) initial_world
             0 eq_refl eq_refl).
  discriminate.
Defined.

(** ** The values shown in the comments *)

(** The values in the comments of lines 57-59 and 115-117 are what the script
    prints when the solver's answers are the optima written with nine
    decimals: the quotients and sums of the stored binary64 numbers are within
    10^-15 of the values shown, whatever the status and the time. *)
Theorem stored_answers_print_the_comments (st1 st2 : LpStatusCode) (t1 t2 : Q) (w : World) :
  let solver := solver_by_part (mkSolution st1 (fun x => Some (stored1 x)) t1)
                               (mkSolution st2 (fun x => Some (stored2 x)) t2) in
  let x1 := stored1 "y1" / stored1 "y0" in
  let x2 := stored1 "y2" / stored1 "y0" in
  let v := 0.00 + stored1 "y1" * 1.8 + stored1 "y2" * 1.7 in
  let x1' := stored2 "y1" / stored2 "y0" in
  let x2' := stored2 "y2" / stored2 "y0" in
  let v' := 0.00 + stored2 "y1" * 1.8 + stored2 "y2" * 1.7 in
  raised (script solver w) = None /\
  stdout (world_of (script solver w)) =
    stdout w ++ [ mkLine "x1 value: " (PyFloat x1);
                  mkLine "x2 value: " (PyFloat x2);
                  mkLine "maximum value: " (PyFloat v);
                  mkLine "solution time: " (PyFloat t1);
                  mkLine "x1 value: " (PyFloat x1');
                  mkLine "x2 value: " (PyFloat x2');
                  mkLine "maximum value: " (PyFloat v');
                  mkLine "solution time: " (PyFloat t2) ] /\
  (Qabs (x1 - 1.3333333439111112) <= 0.000000000000001 /\
   x2 == 4.0 /\
   Qabs (v - 0.28991596659999996) <= 0.000000000000001) /\
  (x1' == 1.0 /\ x2' == 1.0 /\
   Qabs (v' - 0.1933701665) <= 0.000000000000001).
Proof.
  intros solver. cbv zeta.
  set (s1 := mkSolution st1 (fun x => Some (stored1 x)) t1).
  set (s2 := mkSolution st2 (fun x => Some (stored2 x)) t2).
  assert (R1 : report s1 = _)
    by (apply (report_values s1 (stored1 "y0") (stored1 "y1") (stored1 "y2"));
        [reflexivity | reflexivity | reflexivity | discriminate]).
  assert (R2 : report s2 = _)
    by (apply (report_values s2 (stored2 "y0") (stored2 "y1") (stored2 "y2"));
        [reflexivity | reflexivity | reflexivity | discriminate]).
  pose proof (script_run solver w) as H. cbv zeta in H.
  change (solver model1) with s1 in H. change (solver model2) with s2 in H.
  rewrite R1, R2 in H. cbn [fst snd] in H. destruct H as (Hr & Hout & _).
  rewrite <- app_assoc in Hout. cbn [app sol_time s1 s2] in Hout.
  split; [exact Hr|]. split; [exact Hout|].
  split; (split; [|split]); try (apply Qle_bool_iff); vm_compute; reflexivity.
Qed.
